(** * NVDAObjects/IAccessible/adobeAcrobat.py

    A shallow embedding of the two algorithms of the Adobe Acrobat support
    module: the structure-tag classifier [normalizeStdName] and the MathML
    reconstruction [_get_mathMl] / [_getNodeMathMl] / [getMathMLAttributes].

    Conventions.
    - A Python [str] is a [string]; the characters the code inspects are all
      ASCII, and comparing, slicing and searching the UTF-8 bytes agrees with
      doing so on code points for them.
    - A value that the code tests for truthiness ([if val:]) may be [None]:
      it is an [option string], and [truthy] is Python's test.
    - A raised exception is the [Raise] outcome of [result].
    - The calls of [log] have no part in the results and are left out. *)

From Stdlib Require Import Strings.String Strings.Ascii Lists.List Bool Arith NArith Lia.
From Stdlib Require Import ZArith.
Import ListNotations.
Open Scope list_scope.
Open Scope string_scope.
Set Warnings "-register-all".

(** ** Python values and exceptions *)

Inductive exn : Type :=
| LookupError
| KeyError
| COMError
| AttributeError
| IndexError.

Inductive result (A : Type) : Type :=
| Ok (a : A)
| Raise (e : exn).

Arguments Ok {A} a.
Arguments Raise {A} e.

(** [bool(v)] for a value that is [None] or a [str]. *)
Definition truthy (v : option string) : bool :=
  match v with
  | Some (String _ _) => true
  | _ => false
  end.

(** The string a value is; [None] prints as its name in an f-string. *)
Definition fmt (v : option string) : string :=
  match v with
  | Some s => s
  | None => "None"
  end.

(** The double quote and the single quote, as one-character strings. *)
Definition dquote : string := String "034"%char EmptyString.
Definition squote : string := String "039"%char EmptyString.

(** ** controlTypes.Role, as far as the table uses it *)

Module Role.

Inductive t : Type :=
| SECTION | BLOCKQUOTE | CAPTION | LIST | LISTITEM | LABEL
| PARAGRAPH | HEADING | MATH.

End Role.

(** ** stdNamesToRoles *)

Definition stdNamesToRoles : list (string * Role.t) :=
  [ ("Sect", Role.SECTION);
    ("Div", Role.SECTION);
    ("BlockQuote", Role.BLOCKQUOTE);
    ("Caption", Role.CAPTION);
    ("L", Role.LIST);
    ("LI", Role.LISTITEM);
    ("Lbl", Role.LABEL);
    ("P", Role.PARAGRAPH);
    ("H", Role.HEADING);
    ("Formula", Role.MATH) ].

(** [d[k]]: the value of the entry with key [k], or [KeyError]. *)
Fixpoint dict_get {V : Type} (d : list (string * V)) (k : string) : result V :=
  match d with
  | [] => Raise KeyError
  | (k', v) :: d' => if String.eqb k' k then Ok v else dict_get d' k
  end.

(** ** normalizeStdName *)

(** The guard of the first rule: [stdName and "H1" <= stdName <= "H6"]. *)
Definition isHeadingRange (stdName : string) : bool :=
  truthy (Some stdName) && (("H1" <=? stdName) && (stdName <=? "H6")).

(** [s[i]]: the one-character string at index [i], or [IndexError]. *)
Definition str_index (s : string) (i : nat) : result string :=
  match String.get i s with
  | Some c => Ok (String c EmptyString)
  | None => Raise IndexError
  end.

Definition normalizeStdName (stdName : string) : result (Role.t * option string) :=
  if isHeadingRange stdName then
    match str_index stdName 1 with
    | Ok level => Ok (Role.HEADING, Some level)
    | Raise e => Raise e
    end
  else
    match dict_get stdNamesToRoles stdName with
    | Ok role => Ok (role, None)
    | Raise KeyError => Raise LookupError
    | Raise e => Raise e
    end.


(** ** The foreign tree (IPDDomElement)

    What the COM object answers is recorded in the node: [GetTagName],
    [GetID], [GetAttribute(name, owner)], [GetValue], and for every child
    index whether [GetChild(i).QueryInterface(IPDDomElement)] gives an
    element ([Some]) or raises [COMError] ([None]). *)

Inductive IPDDomElement : Type :=
  PDDomElement
    (tagName : string)
    (id : option string)
    (attributes : list (string * string * string))
    (value : option string)
    (children : list (option IPDDomElement)).

Definition GetTagName (node : IPDDomElement) : string :=
  let (tagName, _, _, _, _) := node in tagName.

Definition GetID (node : IPDDomElement) : option string :=
  let (_, id, _, _, _) := node in id.

Definition attributesOf (node : IPDDomElement) : list (string * string * string) :=
  let (_, _, attributes, _, _) := node in attributes.

Definition GetValue (node : IPDDomElement) : option string :=
  let (_, _, _, value, _) := node in value.

Definition childrenOf (node : IPDDomElement) : list (option IPDDomElement) :=
  let (_, _, _, _, children) := node in children.

Fixpoint attr_lookup (l : list (string * string * string)) (name owner : string)
  : option string :=
  match l with
  | [] => None
  | (n, o, v) :: l' =>
      if String.eqb n name && String.eqb o owner then Some v
      else attr_lookup l' name owner
  end.

Definition GetAttribute (node : IPDDomElement) (name owner : string) : option string :=
  attr_lookup (attributesOf node) name owner.

Definition GetChildCount (node : IPDDomElement) : nat :=
  List.length (childrenOf node).

(** [node.GetChild(i).QueryInterface(IPDDomElement)] *)
Definition GetChildElement (node : IPDDomElement) (i : nat) : result IPDDomElement :=
  match nth i (childrenOf node) None with
  | Some child => Ok child
  | None => Raise COMError
  end.

(** ** getMathMLAttributes *)

Definition getMathMLAttributes (node : IPDDomElement) (attrList : list string) : string :=
  fold_left
    (fun attrValues attr =>
       let val := GetAttribute node attr "NSO" in
       if truthy val
       then attrValues ++ " " ++ attr ++ "=" ++ dquote ++ fmt val ++ dquote
       else attrValues)
    attrList EmptyString.

(** The [match tag:] of [_getNodeMathMl]: the attribute list passed to
    [getMathMLAttributes] for the tag, none in the default case. *)
Definition tagAttributes (tag : string) : list string :=
  if existsb (String.eqb tag) ["mi"; "mn"; "mo"; "mtext"] then ["mathvariant"]
  else if String.eqb tag "mfenced" then ["open"; "close"; "separators"]
  else if String.eqb tag "menclose" then ["notation"; "notationtype"]
  else if existsb (String.eqb tag) ["annotation-xml"; "annotation"] then ["encoding"]
  else if String.eqb tag "ms" then ["open"; "close"]
  else if String.eqb tag "mspace" then ["width"]
  else if String.eqb tag "msgroup" then ["position"; "shift"]
  else if String.eqb tag "msrow" then ["position"]
  else if String.eqb tag "msline" then ["position"; "length"]
  else if String.eqb tag "mscarries" then ["position"; "crossout"]
  else if String.eqb tag "mscarry" then ["crossout"]
  else if String.eqb tag "mstack" then ["align"; "stackalign"]
  else if String.eqb tag "mlongdiv" then ["longdivstyle"]
  else [].

(** ** _getNodeMathMl *)

(** [for sub in s: answer += sub] appends the characters of [s] one by one. *)
Fixpoint append_chars (answer s : string) : string :=
  match s with
  | EmptyString => answer
  | String c s' => append_chars (answer ++ String c EmptyString) s'
  end.

(** The first part of [_getNodeMathMl]: the opening tag, up to and including
    [answer += ">"]. *)
Definition openTag (node : IPDDomElement) : string :=
  let tag := GetTagName node in
  let answer := "<" ++ tag in
  let id := GetID node in
  let answer := if truthy id then answer ++ " id=" ++ dquote ++ fmt id ++ dquote
                else answer in
  let answer := answer ++ getMathMLAttributes node ["intent"; "arg"] in
  let answer := answer ++ getMathMLAttributes node (tagAttributes tag) in
  answer ++ ">".

Fixpoint _getNodeMathMl (node : IPDDomElement) : string :=
  let tag := GetTagName node in
  let answer := openTag node in
  let val := GetValue node in
  let answer :=
    if truthy val then answer ++ fmt val
    else
      (* [for childNum in range(node.GetChildCount())], see [children_by_index] *)
      (fix loop (answer : string) (children : list (option IPDDomElement)) : string :=
         match children with
         | [] => answer
         | None :: rest => loop answer rest              (* except COMError: continue *)
         | Some subNode :: rest =>
             loop (append_chars answer (_getNodeMathMl subNode)) rest
         end) answer (childrenOf node)
  in
  answer ++ "</" ++ tag ++ ">".

(** ** str.startswith, str.replace, str.join, html.escape *)

Definition startswith (s pre : string) : bool := String.prefix pre s.

(** [s.replace(old, new)] for a non-empty [old]: the occurrences of [old] are
    found from the left, without overlap; [skip] counts the characters of a
    found occurrence still to pass over. *)
Fixpoint replace_scan (old new : string) (skip : nat) (s : string) : string :=
  match s with
  | EmptyString => EmptyString
  | String c s' =>
      match skip with
      | S k => replace_scan old new k s'
      | O =>
          if String.prefix old s
          then new ++ replace_scan old new (String.length old - 1) s'
          else String c (replace_scan old new 0 s')
      end
  end.

(** With an empty [old], Python puts [new] before every character and at
    the end. *)
Fixpoint replace_empty (new s : string) : string :=
  match s with
  | EmptyString => new
  | String c s' => new ++ String c (replace_empty new s')
  end.

Definition str_replace (s old new : string) : string :=
  match old with
  | EmptyString => replace_empty new s
  | String _ _ => replace_scan old new 0 s
  end.

(** The items a [for] over a string sees: its characters, as strings. *)
Fixpoint chars (s : string) : list string :=
  match s with
  | EmptyString => []
  | String c s' => String c EmptyString :: chars s'
  end.

(** [sep.join(parts)] *)
Fixpoint str_join (sep : string) (parts : list string) : string :=
  match parts with
  | [] => EmptyString
  | [p] => p
  | p :: rest => p ++ sep ++ str_join sep rest
  end.

(** [html.escape(s)], with its default [quote=True], as the standard
    library writes it: five replacements, the ampersand first. *)
Definition html_escape (s : string) : string :=
  let s := str_replace s "&" "&amp;" in
  let s := str_replace s "<" "&lt;" in
  let s := str_replace s ">" "&gt;" in
  let s := str_replace s dquote "&quot;" in
  let s := str_replace s squote "&#x27;" in
  s.

(** ** _get_mathMl *)

(** The namespace declaration [_get_mathMl] removes. *)
Definition xmlns_mml : string :=
  "xmlns:mml=" ++ dquote ++ "http://www.w3.org/1998/Math/MathML" ++ dquote.

(** The loop [for childNum in range(self.pdDomNode.GetChildCount())]:
    [Ok (Some answer)] is its [return answer], [Ok None] is falling out of
    the loop. *)
Fixpoint findTaggedMath (pdDomNode : IPDDomElement) (childNums : list nat)
  : result (option string) :=
  match childNums with
  | [] => Ok None
  | childNum :: rest =>
      match GetChildElement pdDomNode childNum with
      | Raise COMError => findTaggedMath pdDomNode rest
      | Raise e => Raise e
      | Ok child =>
          if String.eqb (GetTagName child) "math"
          then Ok (Some (str_join EmptyString (chars (_getNodeMathMl child))))
          else findTaggedMath pdDomNode rest
      end
  end.

Definition _get_mathMl (pdDomNode : option IPDDomElement) : result string :=
  match pdDomNode with
  | None => Raise LookupError
  | Some node =>
      let math := GetAttribute node "MSFT_MathML" "MSFT_Office" in
      if truthy math then Ok (fmt math)
      else
        match findTaggedMath node (seq 0 (GetChildCount node)) with
        | Raise e => Raise e
        | Ok (Some answer) => Ok answer
        | Ok None =>
            match GetValue node with
            | None => Raise AttributeError       (* None has no startswith *)
            | Some mathMl =>
                if startswith mathMl "<math"
                then Ok (str_replace mathMl xmlns_mml EmptyString)
                else Ok ("<math><mtext>" ++ html_escape mathMl ++ "</mtext></math>")
            end
        end
  end.

(** ** Vocabulary of the properties *)

(** *** Tags of a markup string

    A tag runs from ["<"] to the next [">"] and holds no further ["<"];
    it is a closing tag when it starts with ["/"], otherwise an opening tag
    named by the characters before its first space. *)

Inductive tagToken : Type :=
| OpenTag (name : string)
| CloseTag (name : string).

Fixpoint upToSpace (body : string) : string :=
  match body with
  | EmptyString => EmptyString
  | String c rest =>
      if Ascii.eqb c " " then EmptyString else String c (upToSpace rest)
  end.

Definition nonEmpty (s : string) : bool :=
  match s with
  | EmptyString => false
  | String _ _ => true
  end.

Definition tagOfBody (body : string) : option tagToken :=
  match body with
  | String "/" name => if nonEmpty name then Some (CloseTag name) else None
  | _ => let name := upToSpace body in
         if nonEmpty name then Some (OpenTag name) else None
  end.

(** [scanTags inTag s]: the tags of [s], in order; [inTag] holds the part of
    a tag read so far, [None] outside a tag.  [None] as result: a tag is
    left open, has no name, or has ["<"] inside. *)
Fixpoint scanTags (inTag : option string) (s : string) : option (list tagToken) :=
  match s with
  | EmptyString =>
      match inTag with
      | None => Some []
      | Some _ => None
      end
  | String c s' =>
      match inTag with
      | None =>
          if Ascii.eqb c "<" then scanTags (Some EmptyString) s'
          else scanTags None s'
      | Some body =>
          if Ascii.eqb c "<" then None
          else if Ascii.eqb c ">" then
            match tagOfBody body, scanTags None s' with
            | Some t, Some ts => Some (t :: ts)
            | _, _ => None
            end
          else scanTags (Some (body ++ String c EmptyString)) s'
      end
  end.

(** Every closing tag closes the innermost open tag and has its name, and
    no tag stays open. *)
Fixpoint matchTags (opened : list string) (ts : list tagToken) : bool :=
  match ts with
  | [] => match opened with [] => true | _ :: _ => false end
  | OpenTag n :: rest => matchTags (n :: opened) rest
  | CloseTag n :: rest =>
      match opened with
      | m :: opened' => String.eqb n m && matchTags opened' rest
      | [] => false
      end
  end.

Definition balancedTags (s : string) : bool :=
  match scanTags None s with
  | Some ts => matchTags [] ts
  | None => false
  end.

(** *** Trees whose strings hold no markup *)

Fixpoint hasChar (c : ascii) (s : string) : bool :=
  match s with
  | EmptyString => false
  | String c' s' => Ascii.eqb c' c || hasChar c s'
  end.

(** Text that can stand between tags. *)
Definition plainText (s : string) : bool := negb (hasChar "<" s).

(** Text that can stand inside a tag. *)
Definition plainInTag (s : string) : bool :=
  negb (hasChar "<" s) && negb (hasChar ">" s).

(** A tag name: not empty, no space, no ["<"] or [">"], no leading ["/"]. *)
Definition plainName (s : string) : bool :=
  nonEmpty s && plainInTag s && negb (hasChar " " s) && negb (String.prefix "/" s).

Definition plainIfSet (v : option string) : bool :=
  negb (truthy v) || plainInTag (fmt v).

Fixpoint markupFree (node : IPDDomElement) : bool :=
  let tag := GetTagName node in
  plainName tag
  && plainIfSet (GetID node)
  && forallb (fun attr => plainIfSet (GetAttribute node attr "NSO"))
       (["intent"; "arg"] ++ tagAttributes tag)%list
  && (if truthy (GetValue node) then plainText (fmt (GetValue node))
      else forallb (fun child =>
                      match child with
                      | Some subNode => markupFree subNode
                      | None => true
                      end) (childrenOf node)).

(** *** Attributes written into an opening tag *)

(** The pairs [getMathMLAttributes] writes for [attrList]. *)
Definition presentAttributes (node : IPDDomElement) (attrList : list string)
  : list (string * string) :=
  flat_map (fun attr =>
              let val := GetAttribute node attr "NSO" in
              if truthy val then [(attr, fmt val)] else [])
           attrList.

Definition emittedAttributes (node : IPDDomElement) : list (string * string) :=
  ((if truthy (GetID node) then [("id", fmt (GetID node))] else [])
   ++ presentAttributes node ["intent"; "arg"]
   ++ presentAttributes node (tagAttributes (GetTagName node)))%list.

Definition renderAttribute (a : string * string) : string :=
  " " ++ fst a ++ "=" ++ dquote ++ snd a ++ dquote.

Definition renderAttributes (l : list (string * string)) : string :=
  fold_right (fun a acc => renderAttribute a ++ acc) EmptyString l.

(** The attribute table of the specification (section 6), row by row. *)
Definition AttributeWhitelist : list (list string * list string) :=
  [ (["mi"; "mn"; "mo"; "mtext"], ["mathvariant"]);
    (["mfenced"], ["open"; "close"; "separators"]);
    (["menclose"], ["notation"; "notationtype"]);
    (["annotation-xml"; "annotation"], ["encoding"]);
    (["ms"], ["open"; "close"]);
    (["mspace"], ["width"]);
    (["msgroup"], ["position"; "shift"]);
    (["msrow"], ["position"]);
    (["msline"], ["position"; "length"]);
    (["mscarries"], ["position"; "crossout"]);
    (["mscarry"], ["crossout"]);
    (["mstack"], ["align"; "stackalign"]);
    (["mlongdiv"], ["longdivstyle"]) ].

(** The row of the table for a tag: none beyond the universal ones for a
    tag the table does not list. *)
Fixpoint whitelistFor (table : list (list string * list string)) (tag : string)
  : list string :=
  match table with
  | [] => []
  | (tags, attrs) :: table' =>
      if existsb (String.eqb tag) tags then attrs else whitelistFor table' tag
  end.

Definition universalAttributes : list string := ["intent"; "arg"].

(** *** Escaping, character by character *)

Definition escape_char (c : ascii) : string :=
  if Ascii.eqb c "&" then "&amp;"
  else if Ascii.eqb c "<" then "&lt;"
  else if Ascii.eqb c ">" then "&gt;"
  else if Ascii.eqb c "034" then "&quot;"
  else if Ascii.eqb c "039" then "&#x27;"
  else String c EmptyString.

Fixpoint escape_chars (s : string) : string :=
  match s with
  | EmptyString => EmptyString
  | String c s' => escape_char c ++ escape_chars s'
  end.

(** The first child, in index order, that is an element tagged ["math"]. *)
Fixpoint firstMathChild (children : list (option IPDDomElement)) : option IPDDomElement :=
  match children with
  | [] => None
  | Some child :: rest =>
      if String.eqb (GetTagName child) "math" then Some child
      else firstMathChild rest
  | None :: rest => firstMathChild rest
  end.

(** The fallback tier of [_get_mathMl], on the raw value. *)
Definition fallbackTier (value : option string) : result string :=
  match value with
  | None => Raise AttributeError
  | Some mathMl =>
      if startswith mathMl "<math"
      then Ok (str_replace mathMl xmlns_mml EmptyString)
      else Ok ("<math><mtext>" ++ html_escape mathMl ++ "</mtext></math>")
  end.

(** The names between ["H1"] and ["H6"], spelled out: ["H"], then a
    character from ["1"] to ["5"] followed by anything, or ["H6"] itself. *)
Definition headingShape (s : string) : bool :=
  match s with
  | String "H" (String c rest) =>
      (Ascii.leb "1" c && Ascii.ltb c "6") || (Ascii.eqb c "6" && negb (nonEmpty rest))
  | _ => false
  end.

(** The markup of the children that are elements, in child order. *)
Fixpoint childrenMarkup (children : list (option IPDDomElement)) : string :=
  match children with
  | [] => EmptyString
  | Some subNode :: rest => _getNodeMathMl subNode ++ childrenMarkup rest
  | None :: rest => childrenMarkup rest
  end.

(** What stands between the opening and the closing tag. *)
Definition contentOf (node : IPDDomElement) : string :=
  if truthy (GetValue node) then fmt (GetValue node)
  else childrenMarkup (childrenOf node).

(** [old] occurs somewhere in [s]. *)
Fixpoint occursIn (old s : string) : bool :=
  match s with
  | EmptyString => String.prefix old EmptyString
  | String _ s' => String.prefix old s || occursIn old s'
  end.

(** An occurrence of [old] in [pre ++ rest] starts inside [pre]. *)
Fixpoint startsWithin (old pre rest : string) : bool :=
  match pre with
  | EmptyString => false
  | String _ pre' => String.prefix old (pre ++ rest) || startsWithin old pre' rest
  end.

(** The tags [_getNodeMathMl] writes for an element: its opening tag, the
    tags of its children that are elements unless it has a raw value, its
    closing tag. *)
Fixpoint tagsOf (node : IPDDomElement) : list tagToken :=
  let tag := GetTagName node in
  OpenTag tag
  :: ((if truthy (GetValue node) then []
       else flat_map (fun child =>
                        match child with
                        | Some subNode => tagsOf subNode
                        | None => []
                        end) (childrenOf node))
      ++ [CloseTag tag])%list.

(** ** The rest of the module

    [controlTypes.Role] and [controlTypes.State] as the module names them:
    the roles of the table, the five further roles and the four states the
    code compares with, and any other member. *)

Module controlTypes.

Inductive Role : Type :=
| Std (r : Role.t)
| DOCUMENT
| PAGE
| EDITABLETEXT
| PANE
| TEXTFRAME
| OtherRole (n : nat).

Inductive State : Type :=
| FOCUSABLE
| FOCUSED
| READONLY
| LINKED
| OtherState (n : nat).

Definition Role_eq_dec (a b : Role) : {a = b} + {a <> b}.
Proof. repeat decide equality. Defined.

Definition State_eq_dec (a b : State) : {a = b} + {a <> b}.
Proof. repeat decide equality. Defined.

(** [a == b] *)
Definition Role_eqb (a b : Role) : bool := if Role_eq_dec a b then true else false.
Definition State_eqb (a b : State) : bool := if State_eq_dec a b then true else false.

End controlTypes.

Import controlTypes.

(** A set of states, and [s in states], [a <= b] on such sets. *)
Definition stateSet : Type := list State.

Definition state_in (s : State) (states : stateSet) : bool :=
  existsb (State_eqb s) states.

Definition state_subset (a b : stateSet) : bool :=
  forallb (fun s => state_in s b) a.

(** *** AcrobatNode._get_role *)

(** [normalizeStdName] on what [GetStdName] answers: [None] is falsy and is
    no key of the table. *)
Definition normalizeStdName_any (stdName : option string)
  : result (Role.t * option string) :=
  match stdName with
  | Some s => normalizeStdName s
  | None => Raise LookupError
  end.

(** [GetStdName] is the outcome of [self.pdDomNode.GetStdName()]:
    [AttributeError] when [pdDomNode] is [None] or lacks the method,
    [COMError] when the call fails.  [super_role] is [super().role]. *)
Definition _get_role (GetStdName : result (option string)) (super_role : Role)
  : result Role :=
  let attempt :=
    match GetStdName with
    | Ok stdName =>
        match normalizeStdName_any stdName with
        | Ok (role, _) => Ok (Std role)
        | Raise e => Raise e
        end
    | Raise e => Raise e
    end in
  match attempt with
  | Ok role => Ok role
  | Raise AttributeError | Raise COMError
  | Raise LookupError | Raise KeyError | Raise IndexError =>
      (* [KeyError] and [IndexError] are [LookupError]s *)
      let role := super_role in
      let role := if Role_eqb role PANE then TEXTFRAME else role in
      Ok role
  end.

(** *** AcrobatNode._isEqual *)

Record AcrobatNodeId : Type := {
  windowHandle : Z;
  accID : option Z
}.

(** [bool(v)] for a value that is [None] or an [int]. *)
Definition truthyInt (v : option Z) : bool :=
  match v with
  | Some z => negb (Z.eqb z 0)
  | None => false
  end.

Definition optZ_eqb (a b : option Z) : bool :=
  match a, b with
  | Some x, Some y => Z.eqb x y
  | None, None => true
  | _, _ => false
  end.

(** [super_isEqual] is [super()._isEqual]. *)
Definition _isEqual (super_isEqual : AcrobatNodeId -> AcrobatNodeId -> bool)
           (self other : AcrobatNodeId) : bool :=
  if Z.eqb (windowHandle self) (windowHandle other)
     && truthyInt (accID self) && truthyInt (accID other)
  then optZ_eqb (accID self) (accID other)
  else super_isEqual self other.

(** *** BadFocusStates._get_states *)

(** [states.difference_update({FOCUSABLE, FOCUSED})] on [super().states]. *)
Definition BadFocusStates_get_states (super_states : stateSet) : stateSet :=
  filter (fun s => negb (state_in s [FOCUSABLE; FOCUSED])) super_states.

(** *** findExtraOverlayClasses *)

Inductive overlayClass : Type :=
| Document
| RootTextNode
| RootNode
| BadFocusStates
| EditableTextNode
| AcrobatNode
| OtherClass (n : nat).

(** What [findExtraOverlayClasses] reads of [obj]. *)
Record NVDAObject : Type := {
  role : Role;
  states : stateSet;
  event_childID : option Z;
  event_objectID : option Z
}.

(** [OBJID_CLIENT] is [winUser.OBJID_CLIENT]; the result is [clsList] after
    the appends. *)
Definition findExtraOverlayClasses (OBJID_CLIENT : Z) (obj : NVDAObject)
           (clsList : list overlayClass) : list overlayClass :=
  let role := role obj in
  let states := states obj in
  let clsList :=
    if Role_eqb role DOCUMENT || (Role_eqb role PAGE && state_in READONLY states)
    then (clsList ++ [Document])%list
    else if optZ_eqb (event_childID obj) (Some 0%Z)
            && optZ_eqb (event_objectID obj) (Some OBJID_CLIENT)
    then
      if Role_eqb role EDITABLETEXT
      then (clsList ++ [RootTextNode])%list
      else (clsList ++ [RootNode])%list
    else if Role_eqb role EDITABLETEXT
    then
      if state_subset [READONLY; FOCUSABLE; LINKED] states
      then (clsList ++ [BadFocusStates])%list
      else if state_in FOCUSABLE states
           then (clsList ++ [EditableTextNode])%list
           else clsList
    else clsList
  in
  (clsList ++ [AcrobatNode])%list.

(** The characters [html.escape] replaces. *)
Definition isSpecialChar (c : ascii) : bool :=
  Ascii.eqb c "&" || Ascii.eqb c "<" || Ascii.eqb c ">"
  || Ascii.eqb c "034" || Ascii.eqb c "039".

Fixpoint hasSpecialChar (s : string) : bool :=
  match s with
  | EmptyString => false
  | String c s' => isSpecialChar c || hasSpecialChar s'
  end.

(** The children that are elements. *)
Definition isElement (child : option IPDDomElement) : bool :=
  match child with
  | Some _ => true
  | None => false
  end.

(** *** The opening tags of a markup string, with their attributes

    An opening tag is ["<"], a name, any number of [ name="value"] and
    [">"]; a value ends at the next double quote.  A closing tag is passed
    over.  The scan answers the opening tags in order, each with its
    attributes as written in the string. *)

Inductive tagScan : Type :=
| InText
| InName (name : string)
| InClosing
| InAttrName (tag : string) (attrs : list (string * string)) (name : string)
| AfterEq (tag : string) (attrs : list (string * string)) (name : string)
| InAttrValue (tag : string) (attrs : list (string * string)) (name value : string)
| AfterValue (tag : string) (attrs : list (string * string)).

Definition openTagEntry : Type := (string * list (string * string))%type.

Definition consTag (t : openTagEntry) (r : option (list openTagEntry))
  : option (list openTagEntry) :=
  match r with
  | Some ts => Some (t :: ts)
  | None => None
  end.

Fixpoint scanOpenTags (st : tagScan) (s : string) : option (list openTagEntry) :=
  match s with
  | EmptyString =>
      match st with
      | InText => Some []
      | _ => None
      end
  | String c s' =>
      match st with
      | InText =>
          if Ascii.eqb c "<" then scanOpenTags (InName EmptyString) s'
          else scanOpenTags InText s'
      | InName name =>
          if Ascii.eqb c ">" then
            if nonEmpty name then consTag (name, []) (scanOpenTags InText s') else None
          else if Ascii.eqb c " " then
            if nonEmpty name then scanOpenTags (InAttrName name [] EmptyString) s'
            else None
          else if Ascii.eqb c "/" && negb (nonEmpty name) then scanOpenTags InClosing s'
          else scanOpenTags (InName (name ++ String c EmptyString)) s'
      | InClosing =>
          if Ascii.eqb c ">" then scanOpenTags InText s'
          else scanOpenTags InClosing s'
      | InAttrName tag attrs name =>
          if Ascii.eqb c "=" then
            if nonEmpty name then scanOpenTags (AfterEq tag attrs name) s' else None
          else if Ascii.eqb c " " || Ascii.eqb c ">" || Ascii.eqb c "034" then None
          else scanOpenTags (InAttrName tag attrs (name ++ String c EmptyString)) s'
      | AfterEq tag attrs name =>
          if Ascii.eqb c "034" then scanOpenTags (InAttrValue tag attrs name EmptyString) s'
          else None
      | InAttrValue tag attrs name value =>
          if Ascii.eqb c "034"
          then scanOpenTags (AfterValue tag (attrs ++ [(name, value)])%list) s'
          else scanOpenTags (InAttrValue tag attrs name (value ++ String c EmptyString)) s'
      | AfterValue tag attrs =>
          if Ascii.eqb c ">" then consTag (tag, attrs) (scanOpenTags InText s')
          else if Ascii.eqb c " " then scanOpenTags (InAttrName tag attrs EmptyString) s'
          else None
      end
  end.

(** The opening tags of a string. *)
Definition openTagsOf (s : string) : option (list openTagEntry) :=
  scanOpenTags InText s.

(** *** Trees whose strings end no attribute value and no tag early *)

(** A tag name: not empty, no space, no [">"], no leading ["/"]. *)
Definition tagNameOk (s : string) : bool :=
  nonEmpty s && negb (hasChar " " s) && negb (hasChar ">" s)
  && negb (String.prefix "/" s).

(** A value that is not set, or holds no double quote. *)
Definition quoteFreeIfSet (v : option string) : bool :=
  negb (truthy v) || negb (hasChar "034" (fmt v)).

Fixpoint quoteFree (node : IPDDomElement) : bool :=
  let tag := GetTagName node in
  tagNameOk tag
  && quoteFreeIfSet (GetID node)
  && forallb (fun attr => quoteFreeIfSet (GetAttribute node attr "NSO"))
       (["intent"; "arg"] ++ tagAttributes tag)%list
  && (if truthy (GetValue node) then plainText (fmt (GetValue node))
      else forallb (fun child =>
                      match child with
                      | Some subNode => quoteFree subNode
                      | None => true
                      end) (childrenOf node)).

(** The elements [_getNodeMathMl] writes an opening tag for, in the order
    of the markup, each with its tag name and [emittedAttributes]. *)
Fixpoint elementsOf (node : IPDDomElement) : list openTagEntry :=
  (GetTagName node, emittedAttributes node)
  :: (if truthy (GetValue node) then []
      else flat_map (fun child =>
                       match child with
                       | Some subNode => elementsOf subNode
                       | None => []
                       end) (childrenOf node)).

(** An attribute name: not empty, and none of ["="], space, [">"] or the
    double quote in it. *)
Definition attrNameOk (n : string) : bool :=
  nonEmpty n && negb (hasChar "=" n) && negb (hasChar " " n)
  && negb (hasChar ">" n) && negb (hasChar "034" n).

(** An attribute the scan reads back as it was written. *)
Definition attributeOk (a : string * string) : Prop :=
  attrNameOk (fst a) = true /\ hasChar "034" (snd a) = false.

(** *** A raw value with and without the namespace declaration

    [pieces] and [last] with [decl] after every piece, and without it. *)
Fixpoint withDeclaration (decl : string) (pieces : list string) (last : string) : string :=
  match pieces with
  | [] => last
  | p :: pieces' => p ++ decl ++ withDeclaration decl pieces' last
  end.

Fixpoint withoutDeclaration (pieces : list string) (last : string) : string :=
  match pieces with
  | [] => last
  | p :: pieces' => p ++ withoutDeclaration pieces' last
  end.

(** Every [decl] of [withDeclaration] is the leftmost occurrence in what is
    left of the string: none starts inside the piece before it, and none
    occurs in [last]. *)
Fixpoint leftmostCuts (decl : string) (pieces : list string) (last : string) : bool :=
  match pieces with
  | [] => negb (occursIn decl last)
  | p :: pieces' =>
      negb (startsWithin decl p (decl ++ withDeclaration decl pieces' last))
      && leftmostCuts decl pieces' last
  end.

(** * Properties *)

(** ** Strings *)

Lemma append_nil_r (s : string) : s ++ EmptyString = s.
Proof. induction s as [|c s IH]; simpl; [reflexivity | now rewrite IH]. Qed.

Lemma append_assoc (a b c : string) : (a ++ b) ++ c = a ++ (b ++ c).
Proof. induction a as [|x a IH]; simpl; [reflexivity | now rewrite IH]. Qed.

Lemma truthy_nonempty (v : option string) :
  truthy v = true <-> exists c s, v = Some (String c s).
Proof.
  split.
  - destruct v as [[|c s]|]; simpl; try discriminate. intros _. now exists c, s.
  - intros (c & s & ->). reflexivity.
Qed.

Lemma truthy_fmt (v : option string) : truthy v = true -> v = Some (fmt v).
Proof. destruct v as [[|c s]|]; simpl; try discriminate; reflexivity. Qed.

Lemma truthy_fmt_nonempty (v : option string) :
  truthy v = true -> fmt v <> EmptyString.
Proof. destruct v as [[|c s]|]; simpl; discriminate. Qed.

(** ** normalizeStdName *)

Lemma ascii_compare_refl (c : ascii) : Ascii.compare c c = Eq.
Proof. unfold Ascii.compare. apply N.compare_refl. Qed.

Lemma ascii_compare_Eq (a b : ascii) : Ascii.compare a b = Eq <-> a = b.
Proof.
  split; [apply Ascii.compare_eq_iff | intros ->; apply ascii_compare_refl].
Qed.

Lemma string_compare_empty_r (s : string) :
  String.compare s EmptyString = (if nonEmpty s then Gt else Eq).
Proof. destruct s; reflexivity. Qed.

(** The lexicographic test of the first rule accepts exactly the names of
    [headingShape]. *)
Lemma isHeadingRange_shape (s : string) : isHeadingRange s = headingShape s.
Proof.
  destruct s as [|a s]; [reflexivity|].
  unfold isHeadingRange, headingShape, String.leb. simpl truthy. cbv beta iota.
  rewrite andb_true_l.
  change (String.compare "H1" (String a s))
    with (match Ascii.compare "H" a with
          | Eq => String.compare "1" s | Lt => Lt | Gt => Gt end).
  change (String.compare (String a s) "H6")
    with (match Ascii.compare a "H" with
          | Eq => String.compare s "6" | Lt => Lt | Gt => Gt end).
  rewrite (Ascii.compare_antisym a "H").
  destruct (Ascii.compare "H" a) eqn:Ha; simpl CompOpp; cbv iota.
  - apply ascii_compare_Eq in Ha. subst a.
    destruct s as [|c rest]; [reflexivity|].
    change (String.compare "1" (String c rest))
      with (match Ascii.compare "1" c with
            | Eq => String.compare EmptyString rest | Lt => Lt | Gt => Gt end).
    change (String.compare (String c rest) "6")
      with (match Ascii.compare c "6" with
            | Eq => String.compare rest EmptyString | Lt => Lt | Gt => Gt end).
    rewrite string_compare_empty_r.
    unfold Ascii.leb, Ascii.ltb.
    destruct (Ascii.eqb_spec c "6") as [->|Hne].
    + destruct rest; reflexivity.
    + rewrite andb_false_l, orb_false_r.
      destruct (Ascii.compare c "6") eqn:Hc6.
      * apply ascii_compare_Eq in Hc6. contradiction.
      * destruct (Ascii.compare "1" c) eqn:H1c; try reflexivity.
        destruct rest; reflexivity.
      * destruct (Ascii.compare "1" c) eqn:H1c; try reflexivity.
        destruct rest; reflexivity.
  - (* "H" < a: the name is above "H6" *)
    assert (Hne : a <> "H"%char).
    { intros ->. rewrite ascii_compare_refl in Ha. discriminate. }
    destruct a as [[] [] [] [] [] [] [] []]; try reflexivity; now elim Hne.
  - assert (Hne : a <> "H"%char).
    { intros ->. rewrite ascii_compare_refl in Ha. discriminate. }
    destruct a as [[] [] [] [] [] [] [] []]; try reflexivity; now elim Hne.
Qed.

Lemma headingShape_index (s : string) :
  headingShape s = true -> exists level, str_index s 1 = Ok level.
Proof.
  destruct s as [|a [|c rest]]; simpl.
  - discriminate.
  - destruct a as [[] [] [] [] [] [] [] []]; discriminate.
  - intros _. exists (String c EmptyString). reflexivity.
Qed.



Lemma dict_get_raises {V : Type} (d : list (string * V)) (k : string) (e : exn) :
  dict_get d k = Raise e -> e = KeyError.
Proof.
  induction d as [|[k' v'] d IH]; simpl.
  - now intros [= <-].
  - destruct (String.eqb k' k); [discriminate | exact IH].
Qed.








(** ** The loops, as the source writes them *)

Lemma append_chars_append (s answer : string) : append_chars answer s = answer ++ s.
Proof.
  revert answer. induction s as [|c s IH]; intros answer; simpl.
  - now rewrite append_nil_r.
  - rewrite IH, append_assoc. reflexivity.
Qed.

Lemma str_join_chars (s : string) : str_join EmptyString (chars s) = s.
Proof.
  induction s as [|c s IH]; [reflexivity|].
  change (chars (String c s)) with (String c EmptyString :: chars s).
  destruct s as [|c' s']; [reflexivity|].
  change (chars (String c' s')) with (String c' EmptyString :: chars s') in *.
  change (str_join EmptyString (String c EmptyString :: String c' EmptyString :: chars s'))
    with (String c EmptyString ++ EmptyString
          ++ str_join EmptyString (String c' EmptyString :: chars s')).
  rewrite IH. reflexivity.
Qed.

(** Indexing the children from [0] to [GetChildCount] visits the list of
    children from left to right. *)
Lemma children_by_index (node : IPDDomElement) :
  map (GetChildElement node) (seq 0 (GetChildCount node))
  = map (fun c => match c with Some child => Ok child | None => Raise COMError end)
        (childrenOf node).
Proof.
  unfold GetChildCount, GetChildElement.
  apply nth_ext with (d := Raise COMError) (d' := Raise COMError).
  - now rewrite !length_map, length_seq.
  - intros n Hn. rewrite length_map, length_seq in Hn.
    rewrite (map_nth (fun c : option IPDDomElement =>
                        match c with Some child => Ok child | None => Raise COMError end)
               (childrenOf node) None n).
    rewrite nth_indep with (d' := match nth 0 (childrenOf node) None with
                                  | Some child => Ok child
                                  | None => Raise COMError end)
      by now rewrite length_map, length_seq.
    rewrite (map_nth (fun i => match nth i (childrenOf node) None with
                               | Some child => Ok child
                               | None => Raise COMError end) (seq 0 _) 0 n).
    now rewrite seq_nth.
Qed.

Lemma _getNodeMathMl_loop (children : list (option IPDDomElement)) (answer : string) :
  (fix loop (answer : string) (children : list (option IPDDomElement)) : string :=
     match children with
     | [] => answer
     | None :: rest => loop answer rest
     | Some subNode :: rest => loop (append_chars answer (_getNodeMathMl subNode)) rest
     end) answer children
  = answer ++ childrenMarkup children.
Proof.
  revert answer. induction children as [|[subNode|] rest IH]; intros answer.
  - simpl. now rewrite append_nil_r.
  - rewrite IH, append_chars_append, append_assoc. reflexivity.
  - rewrite IH. reflexivity.
Qed.

(** [_getNodeMathMl]: the opening tag, the content, the closing tag. *)
Lemma _getNodeMathMl_eq (node : IPDDomElement) :
  _getNodeMathMl node
  = openTag node ++ contentOf node ++ "</" ++ GetTagName node ++ ">".
Proof.
  destruct node as [tag id attrs value children].
  unfold contentOf.
  change (_getNodeMathMl (PDDomElement tag id attrs value children))
    with ((if truthy value
           then openTag (PDDomElement tag id attrs value children) ++ fmt value
           else (fix loop (answer : string) (children : list (option IPDDomElement))
                   : string :=
                   match children with
                   | [] => answer
                   | None :: rest => loop answer rest
                   | Some subNode :: rest =>
                       loop (append_chars answer (_getNodeMathMl subNode)) rest
                   end) (openTag (PDDomElement tag id attrs value children)) children)
          ++ "</" ++ tag ++ ">").
  simpl GetValue. simpl childrenOf. simpl GetTagName.
  destruct (truthy value).
  - now rewrite append_assoc.
  - now rewrite _getNodeMathMl_loop, append_assoc.
Qed.

(** ** _get_mathMl: the three tiers *)

Lemma GetChildElement_middle (node : IPDDomElement)
      (pre rest : list (option IPDDomElement)) (c : option IPDDomElement) :
  childrenOf node = (pre ++ c :: rest)%list ->
  GetChildElement node (List.length pre)
  = match c with Some child => Ok child | None => Raise COMError end.
Proof.
  intros H. unfold GetChildElement. rewrite H, nth_middle. reflexivity.
Qed.

Lemma findTaggedMath_from (node : IPDDomElement)
      (rest pre : list (option IPDDomElement)) :
  childrenOf node = (pre ++ rest)%list ->
  findTaggedMath node (seq (List.length pre) (List.length rest))
  = Ok (option_map _getNodeMathMl (firstMathChild rest)).
Proof.
  revert pre. induction rest as [|c rest IH]; intros pre Hch; [reflexivity|].
  simpl List.length. simpl seq.
  assert (Hnext : findTaggedMath node (seq (S (List.length pre)) (List.length rest))
                  = Ok (option_map _getNodeMathMl (firstMathChild rest))).
  { specialize (IH (pre ++ [c])%list).
    rewrite length_app, Nat.add_comm in IH. apply IH.
    now rewrite <- app_assoc. }
  simpl findTaggedMath.
  rewrite (GetChildElement_middle node pre rest c Hch).
  destruct c as [child|]; simpl firstMathChild.
  - destruct (String.eqb (GetTagName child) "math").
    + now rewrite str_join_chars.
    + exact Hnext.
  - exact Hnext.
Qed.

(** The scan of the children returns the markup of the first child that is
    an element tagged ["math"], if there is one. *)
Lemma findTaggedMath_first (node : IPDDomElement) :
  findTaggedMath node (seq 0 (GetChildCount node))
  = Ok (option_map _getNodeMathMl (firstMathChild (childrenOf node))).
Proof. exact (findTaggedMath_from node (childrenOf node) [] eq_refl). Qed.

Lemma _get_mathMl_tiers (node : IPDDomElement) :
  _get_mathMl (Some node)
  = let math := GetAttribute node "MSFT_MathML" "MSFT_Office" in
    if truthy math then Ok (fmt math)
    else match firstMathChild (childrenOf node) with
         | Some child => Ok (_getNodeMathMl child)
         | None => fallbackTier (GetValue node)
         end.
Proof.
  unfold _get_mathMl. cbv zeta.
  destruct (truthy (GetAttribute node "MSFT_MathML" "MSFT_Office")); [reflexivity|].
  rewrite findTaggedMath_first.
  destruct (firstMathChild (childrenOf node)); reflexivity.
Qed.

Lemma firstMathChild_skip (pre post : list (option IPDDomElement)) (child : IPDDomElement) :
  (forall c, In (Some c) pre -> GetTagName c <> "math") ->
  GetTagName child = "math" ->
  firstMathChild (pre ++ Some child :: post) = Some child.
Proof.
  intros Hpre Htag. induction pre as [|[c|] pre IH]; simpl.
  - now rewrite Htag.
  - destruct (String.eqb_spec (GetTagName c) "math") as [He|_].
    + elim (Hpre c); [now left | exact He].
    + apply IH. intros c' Hin. apply Hpre. now right.
  - apply IH. intros c' Hin. apply Hpre. now right.
Qed.

Lemma firstMathChild_none (children : list (option IPDDomElement)) :
  (forall c, In (Some c) children -> GetTagName c <> "math") ->
  firstMathChild children = None.
Proof.
  induction children as [|[c|] rest IH]; intros H; simpl.
  - reflexivity.
  - destruct (String.eqb_spec (GetTagName c) "math") as [He|_].
    + elim (H c); [now left | exact He].
    + apply IH. intros c' Hin. apply H. now right.
  - apply IH. intros c' Hin. apply H. now right.
Qed.

(** C4.  A vendor attribute [MSFT_MathML] (owner [MSFT_Office]) that is
    present and not empty is returned as it is, whatever the children and
    the raw value of the node are. *)
Theorem _get_mathMl_vendor_attribute (node : IPDDomElement) (v : string) :
  GetAttribute node "MSFT_MathML" "MSFT_Office" = Some v ->
  v <> EmptyString ->
  _get_mathMl (Some node) = Ok v.
Proof.
  intros Hattr Hv. rewrite _get_mathMl_tiers. cbv zeta. rewrite Hattr.
  destruct v as [|c v]; [now elim Hv | reflexivity].
Qed.

(** C4, witness: the attribute wins over a child tagged ["math"]. *)
Lemma _get_mathMl_vendor_attribute_witness :
  _get_mathMl
    (Some (PDDomElement "Formula" None
             [("MSFT_MathML", "MSFT_Office", "<math><mn>1</mn></math>")]
             (Some "one")
             [Some (PDDomElement "math" None [] None
                      [Some (PDDomElement "mn" None [] (Some "2") [])])]))
  = Ok "<math><mn>1</mn></math>".
Proof.
  apply _get_mathMl_vendor_attribute; [reflexivity | discriminate].
Defined.

(** C8.  Without a vendor attribute, the children are tried in index order;
    a child that is no element is passed over, and the markup of the first
    element tagged ["math"] is the result, whatever follows it. *)
Theorem _get_mathMl_first_math_child
        (node child : IPDDomElement) (pre post : list (option IPDDomElement)) :
  truthy (GetAttribute node "MSFT_MathML" "MSFT_Office") = false ->
  childrenOf node = (pre ++ Some child :: post)%list ->
  (forall c, In (Some c) pre -> GetTagName c <> "math") ->
  GetTagName child = "math" ->
  _get_mathMl (Some node) = Ok (_getNodeMathMl child)
  /\ findTaggedMath node (seq 0 (GetChildCount node)) = Ok (Some (_getNodeMathMl child))
  /\ map (GetChildElement node) (seq 0 (List.length pre))
     = map (fun c => match c with Some e => Ok e | None => Raise COMError end) pre
  /\ GetChildElement node (List.length pre) = Ok child.
Proof.
  intros Hattr Hch Hpre Htag.
  pose proof (firstMathChild_skip pre post child Hpre Htag) as Hfirst.
  split; [|split; [|split]].
  - rewrite _get_mathMl_tiers. cbv zeta. now rewrite Hattr, Hch, Hfirst.
  - now rewrite findTaggedMath_first, Hch, Hfirst.
  - pose proof (children_by_index node) as Hidx.
    unfold GetChildCount in Hidx. rewrite Hch in Hidx.
    rewrite length_app, seq_app, !map_app in Hidx.
    apply (f_equal (firstn (List.length pre))) in Hidx.
    rewrite !firstn_app in Hidx.
    rewrite !length_map, length_seq, Nat.sub_diag in Hidx.
    rewrite !firstn_O, !app_nil_r in Hidx.
    rewrite !firstn_all2 in Hidx by now rewrite length_map, ?length_seq.
    exact Hidx.
  - exact (GetChildElement_middle node pre post (Some child) Hch).
Qed.

(** C8, witness: the first child is no element, the second is tagged
    ["mrow"], the third and the fourth are tagged ["math"]; the third is
    used, and a [GetValue] of the node is not looked at. *)
Lemma _get_mathMl_first_math_child_witness :
  _get_mathMl
    (Some (PDDomElement "Formula" None [] (Some "alt")
             [None;
              Some (PDDomElement "mrow" None [] None []);
              Some (PDDomElement "math" None [] None
                      [Some (PDDomElement "mn" None [] (Some "1") [])]);
              Some (PDDomElement "math" None [] None
                      [Some (PDDomElement "mn" None [] (Some "2") [])])]))
  = Ok "<math><mn>1</mn></math>".
Proof.
  apply (_get_mathMl_first_math_child
           (PDDomElement "Formula" None [] (Some "alt")
             [None;
              Some (PDDomElement "mrow" None [] None []);
              Some (PDDomElement "math" None [] None
                      [Some (PDDomElement "mn" None [] (Some "1") [])]);
              Some (PDDomElement "math" None [] None
                      [Some (PDDomElement "mn" None [] (Some "2") [])])])
           (PDDomElement "math" None [] None
              [Some (PDDomElement "mn" None [] (Some "1") [])])
           [None; Some (PDDomElement "mrow" None [] None [])]
           [Some (PDDomElement "math" None [] None
                    [Some (PDDomElement "mn" None [] (Some "2") [])])]).
  - reflexivity.
  - reflexivity.
  - intros c [H|[H|[]]]; [discriminate H|]. injection H as <-. discriminate.
  - reflexivity.
Defined.

(** C10.  The test for a tagged child is equality with ["math"]: when no
    child that is an element carries exactly this tag name, the result is
    that of the fallback tier on the raw value. *)
Theorem _get_mathMl_tag_test_exact (node : IPDDomElement) :
  truthy (GetAttribute node "MSFT_MathML" "MSFT_Office") = false ->
  (forall c, In (Some c) (childrenOf node) -> GetTagName c <> "math") ->
  _get_mathMl (Some node) = fallbackTier (GetValue node).
Proof.
  intros Hattr Hch. rewrite _get_mathMl_tiers. cbv zeta.
  now rewrite Hattr, (firstMathChild_none _ Hch).
Qed.

(** C10, witness: children tagged ["Math"], ["MATH"] and [" math "] are not
    taken; the raw value is wrapped as alternative text. *)
Lemma _get_mathMl_tag_test_exact_witness :
  _get_mathMl
    (Some (PDDomElement "Formula" None [] (Some "x")
             [Some (PDDomElement "Math" None [] None []);
              Some (PDDomElement "MATH" None [] None []);
              Some (PDDomElement " math " None [] None [])]))
  = Ok "<math><mtext>x</mtext></math>".
Proof.
  apply (_get_mathMl_tag_test_exact
           (PDDomElement "Formula" None [] (Some "x")
             [Some (PDDomElement "Math" None [] None []);
              Some (PDDomElement "MATH" None [] None []);
              Some (PDDomElement " math " None [] None [])])).
  - reflexivity.
  - intros c H. simpl in H.
    destruct H as [H|[H|[H|[]]]]; injection H as <-; discriminate.
Defined.

(** ** str.replace *)

Lemma prefix_refl_app (old post : string) : String.prefix old (old ++ post) = true.
Proof.
  induction old as [|c old IH]; simpl; [now destruct post|].
  destruct (ascii_dec c c) as [_|Hne]; [exact IH | now elim Hne].
Qed.

Lemma replace_scan_skip (old new a b : string) :
  replace_scan old new (String.length a) (a ++ b) = replace_scan old new 0 b.
Proof. induction a as [|c a IH]; simpl; [reflexivity | exact IH]. Qed.

Lemma replace_scan_unchanged (old new s : string) :
  occursIn old s = false -> replace_scan old new 0 s = s.
Proof.
  induction s as [|c s IH]; [reflexivity|].
  intros H. change (occursIn old (String c s))
    with (String.prefix old (String c s) || occursIn old s) in H.
  apply orb_false_iff in H. destruct H as [Hp Ho].
  change (replace_scan old new 0 (String c s))
    with (if String.prefix old (String c s)
          then new ++ replace_scan old new (String.length old - 1) s
          else String c (replace_scan old new 0 s)).
  rewrite Hp, (IH Ho). reflexivity.
Qed.

(** The leftmost occurrence of [old] is replaced, and the scan goes on
    behind it. *)
Lemma replace_scan_first (o : ascii) (old' new pre post : string) :
  startsWithin (String o old') pre (String o old' ++ post) = false ->
  replace_scan (String o old') new 0 (pre ++ String o old' ++ post)
  = pre ++ new ++ replace_scan (String o old') new 0 post.
Proof.
  set (old := String o old').
  induction pre as [|c pre IH]; intros H.
  - change (EmptyString ++ old ++ post) with (String o (old' ++ post)).
    change (replace_scan old new 0 (String o (old' ++ post)))
      with (if String.prefix old (String o (old' ++ post))
            then new ++ replace_scan old new (String.length old - 1) (old' ++ post)
            else String o (replace_scan old new 0 (old' ++ post))).
    change (String o (old' ++ post)) with (old ++ post).
    rewrite prefix_refl_app.
    replace (String.length old - 1) with (String.length old')
      by (unfold old; simpl; lia).
    now rewrite replace_scan_skip.
  - change (startsWithin old (String c pre) (old ++ post))
      with (String.prefix old (String c pre ++ old ++ post)
            || startsWithin old pre (old ++ post)) in H.
    apply orb_false_iff in H. destruct H as [Hp Hs].
    change (String c pre ++ old ++ post) with (String c (pre ++ old ++ post)) in *.
    change (replace_scan old new 0 (String c (pre ++ old ++ post)))
      with (if String.prefix old (String c (pre ++ old ++ post))
            then new ++ replace_scan old new (String.length old - 1) (pre ++ old ++ post)
            else String c (replace_scan old new 0 (pre ++ old ++ post))).
    rewrite Hp, (IH Hs). reflexivity.
Qed.

(** Replacing a single character works character by character. *)
Lemma replace_char_cons (o c : ascii) (new s : string) :
  replace_scan (String o EmptyString) new 0 (String c s)
  = (if Ascii.eqb c o then new else String c EmptyString)
    ++ replace_scan (String o EmptyString) new 0 s.
Proof.
  change (replace_scan (String o EmptyString) new 0 (String c s))
    with (if String.prefix (String o EmptyString) (String c s)
          then new ++ replace_scan (String o EmptyString) new 0 s
          else String c (replace_scan (String o EmptyString) new 0 s)).
  simpl String.prefix.
  destruct (ascii_dec o c) as [->|Hne].
  - rewrite Ascii.eqb_refl. now destruct s.
  - destruct (Ascii.eqb_spec c o) as [->|_]; [now elim Hne | reflexivity].
Qed.

Lemma replace_char_app (o : ascii) (new a b : string) :
  replace_scan (String o EmptyString) new 0 (a ++ b)
  = replace_scan (String o EmptyString) new 0 a
    ++ replace_scan (String o EmptyString) new 0 b.
Proof.
  induction a as [|c a IH]; [reflexivity|].
  change (String c a ++ b) with (String c (a ++ b)).
  now rewrite !replace_char_cons, IH, append_assoc.
Qed.

Lemma html_escape_app (a b : string) : html_escape (a ++ b) = html_escape a ++ html_escape b.
Proof.
  unfold html_escape, str_replace, dquote, squote.
  now rewrite !replace_char_app.
Qed.

Lemma html_escape_char (c : ascii) : html_escape (String c EmptyString) = escape_char c.
Proof.
  unfold html_escape, str_replace, dquote, squote, escape_char.
  rewrite replace_char_cons.
  destruct (Ascii.eqb c "&"); [reflexivity|].
  change (replace_scan "&" "&amp;" 0 EmptyString) with EmptyString.
  rewrite append_nil_r, replace_char_cons.
  destruct (Ascii.eqb c "<"); [reflexivity|].
  change (replace_scan "<" "&lt;" 0 EmptyString) with EmptyString.
  rewrite append_nil_r, replace_char_cons.
  destruct (Ascii.eqb c ">"); [reflexivity|].
  change (replace_scan ">" "&gt;" 0 EmptyString) with EmptyString.
  rewrite append_nil_r, replace_char_cons.
  destruct (Ascii.eqb c "034"); [reflexivity|].
  change (replace_scan (String "034" EmptyString) "&quot;" 0 EmptyString) with EmptyString.
  rewrite append_nil_r, replace_char_cons.
  destruct (Ascii.eqb c "039"); reflexivity.
Qed.

(** [html.escape] translates every character on its own. *)
Lemma html_escape_chars (s : string) : html_escape s = escape_chars s.
Proof.
  induction s as [|c s IH]; [reflexivity|].
  change (String c s) with (String c EmptyString ++ s).
  rewrite html_escape_app, html_escape_char, IH. reflexivity.
Qed.

Lemma hasChar_app (c : ascii) (a b : string) :
  hasChar c (a ++ b) = hasChar c a || hasChar c b.
Proof.
  induction a as [|x a IH]; simpl; [reflexivity|].
  now rewrite IH, orb_assoc.
Qed.

Lemma escape_chars_no_angle (s : string) :
  hasChar "<" (escape_chars s) = false /\ hasChar ">" (escape_chars s) = false.
Proof.
  induction s as [|c s [IHl IHg]]; [split; reflexivity|].
  simpl escape_chars. rewrite !hasChar_app, IHl, IHg, !orb_false_r.
  unfold escape_char.
  destruct (Ascii.eqb c "&"); [split; reflexivity|].
  destruct (Ascii.eqb c "<") eqn:Hl; [split; reflexivity|].
  destruct (Ascii.eqb c ">") eqn:Hg; [split; reflexivity|].
  destruct (Ascii.eqb c "034"); [split; reflexivity|].
  destruct (Ascii.eqb c "039"); [split; reflexivity|].
  simpl. now rewrite Hl, Hg.
Qed.

(** The fallback tier on a raw value that does not start with ["<math"]. *)
Lemma _get_mathMl_fallback_text (node : IPDDomElement) (v : string) :
  truthy (GetAttribute node "MSFT_MathML" "MSFT_Office") = false ->
  (forall c, In (Some c) (childrenOf node) -> GetTagName c <> "math") ->
  GetValue node = Some v ->
  startswith v "<math" = false ->
  _get_mathMl (Some node) = Ok ("<math><mtext>" ++ escape_chars v ++ "</mtext></math>").
Proof.
  intros Hattr Hch Hval Hpre. rewrite _get_mathMl_tiers. cbv zeta.
  rewrite Hattr, (firstMathChild_none _ Hch), Hval. unfold fallbackTier.
  now rewrite Hpre, html_escape_chars.
Qed.

(** C5, the part the code keeps: a raw value that is a string not starting
    with ["<math"], the empty string among them, is escaped and wrapped; the
    escaped text holds no ["<"] and no [">"]. *)
Lemma _get_mathMl_alt_text (node : IPDDomElement) (v : string) :
  truthy (GetAttribute node "MSFT_MathML" "MSFT_Office") = false ->
  (forall c, In (Some c) (childrenOf node) -> GetTagName c <> "math") ->
  GetValue node = Some v ->
  startswith v "<math" = false ->
  _get_mathMl (Some node) = Ok ("<math><mtext>" ++ escape_chars v ++ "</mtext></math>")
  /\ hasChar "<" (escape_chars v) = false
  /\ hasChar ">" (escape_chars v) = false.
Proof.
  intros Hattr Hch Hval Hpre. split.
  - now apply _get_mathMl_fallback_text.
  - apply escape_chars_no_angle.
Qed.

Lemma _get_mathMl_alt_text_examples :
  _get_mathMl (Some (PDDomElement "Formula" None [] (Some "a < b") []))
  = Ok "<math><mtext>a &lt; b</mtext></math>"
  /\ _get_mathMl (Some (PDDomElement "Formula" None [] (Some EmptyString) []))
     = Ok "<math><mtext></mtext></math>".
Proof. split; reflexivity. Qed.

(** C5, where the code departs from it: a raw value that is absent
    ([GetValue] answers [None]) is not wrapped as empty alternative text;
    [mathMl.startswith] raises [AttributeError]. *)
Theorem _get_mathMl_absent_value_raises :
  _get_mathMl (Some (PDDomElement "Formula" None [] None [])) = Raise AttributeError
  /\ (forall node,
        truthy (GetAttribute node "MSFT_MathML" "MSFT_Office") = false ->
        (forall c, In (Some c) (childrenOf node) -> GetTagName c <> "math") ->
        GetValue node = None ->
        _get_mathMl (Some node) = Raise AttributeError).
Proof.
  split; [reflexivity|].
  intros node Hattr Hch Hval. rewrite _get_mathMl_tiers. cbv zeta.
  now rewrite Hattr, (firstMathChild_none _ Hch), Hval.
Qed.

Lemma replace_scan_pieces (o : ascii) (old' : string) (pieces : list string)
      (last : string) :
  leftmostCuts (String o old') pieces last = true ->
  replace_scan (String o old') EmptyString 0 (withDeclaration (String o old') pieces last)
  = withoutDeclaration pieces last.
Proof.
  induction pieces as [|p pieces IH]; intros H.
  - simpl in H. apply negb_true_iff in H. now apply replace_scan_unchanged.
  - change (leftmostCuts (String o old') (p :: pieces) last)
      with (negb (startsWithin (String o old') p
                    (String o old' ++ withDeclaration (String o old') pieces last))
            && leftmostCuts (String o old') pieces last) in H.
    apply andb_true_iff in H. destruct H as [Hstart Hrest].
    apply negb_true_iff in Hstart.
    change (withDeclaration (String o old') (p :: pieces) last)
      with (p ++ String o old' ++ withDeclaration (String o old') pieces last).
    rewrite (replace_scan_first o old' EmptyString p _ Hstart), (IH Hrest).
    reflexivity.
Qed.

(** C6.  A raw value that starts with ["<math"] is returned with every
    occurrence of the namespace declaration
    [xmlns:mml="http://www.w3.org/1998/Math/MathML"] taken out and nothing
    else changed: unchanged when the declaration does not occur, and, when
    the value is pieces of text with the declaration after each of them,
    every one the leftmost occurrence in what follows the piece before,
    the pieces alone. *)
Theorem _get_mathMl_prerendered (node : IPDDomElement) (v : string) :
  truthy (GetAttribute node "MSFT_MathML" "MSFT_Office") = false ->
  (forall c, In (Some c) (childrenOf node) -> GetTagName c <> "math") ->
  GetValue node = Some v ->
  startswith v "<math" = true ->
  let declaration :=
    "xmlns:mml=" ++ String "034" ("http://www.w3.org/1998/Math/MathML"
                                  ++ String "034" EmptyString) in
  (occursIn declaration v = false -> _get_mathMl (Some node) = Ok v)
  /\ (forall pieces last,
        v = withDeclaration declaration pieces last ->
        leftmostCuts declaration pieces last = true ->
        _get_mathMl (Some node) = Ok (withoutDeclaration pieces last)).
Proof.
  intros Hattr Hch Hval Hpre declaration.
  assert (Hres : _get_mathMl (Some node)
                 = Ok (replace_scan declaration EmptyString 0 v)).
  { rewrite _get_mathMl_tiers. cbv zeta.
    rewrite Hattr, (firstMathChild_none _ Hch), Hval. unfold fallbackTier.
    now rewrite Hpre. }
  rewrite Hres. split.
  - intros Hno. now rewrite (replace_scan_unchanged _ _ _ Hno).
  - intros pieces last -> Hcuts. apply f_equal.
    exact (replace_scan_pieces "x" _ pieces last Hcuts).
Qed.

(** C6, witness: the example of the specification. *)
Lemma _get_mathMl_prerendered_witness :
  _get_mathMl
    (Some (PDDomElement "Formula" None []
             (Some ("<math xmlns:mml="
                    ++ String "034" ("http://www.w3.org/1998/Math/MathML"
                                     ++ String "034" "><mi>x</mi></math>"))) []))
  = Ok "<math ><mi>x</mi></math>".
Proof.
  apply (proj2 (_get_mathMl_prerendered
                  (PDDomElement "Formula" None []
                     (Some ("<math xmlns:mml="
                            ++ String "034" ("http://www.w3.org/1998/Math/MathML"
                                             ++ String "034" "><mi>x</mi></math>"))) [])
                  ("<math xmlns:mml="
                   ++ String "034" ("http://www.w3.org/1998/Math/MathML"
                                    ++ String "034" "><mi>x</mi></math>"))
                  eq_refl (fun c H => match H with end) eq_refl eq_refl)
           ["<math "] "><mi>x</mi></math>"); reflexivity.
Defined.

(** C6, two declarations: both are taken out. *)
Lemma _get_mathMl_prerendered_twice :
  _get_mathMl
    (Some (PDDomElement "Formula" None []
             (Some ("<math xmlns:mml="
                    ++ String "034" ("http://www.w3.org/1998/Math/MathML"
                                     ++ String "034" (" xmlns:mml="
                    ++ String "034" ("http://www.w3.org/1998/Math/MathML"
                                     ++ String "034" "><mn>1</mn></math>"))))) []))
  = Ok "<math  ><mn>1</mn></math>".
Proof. reflexivity. Qed.

(** C9.  The escaping of the fallback tier is that of [html.escape] with
    its default quoting: besides ["&"], ["<"] and [">"], the double quote
    becomes ["&quot;"] and the single quote ["&#x27;"]. *)
Theorem _get_mathMl_alt_text_quotes (node : IPDDomElement) (v : string) :
  truthy (GetAttribute node "MSFT_MathML" "MSFT_Office") = false ->
  (forall c, In (Some c) (childrenOf node) -> GetTagName c <> "math") ->
  GetValue node = Some v ->
  startswith v "<math" = false ->
  _get_mathMl (Some node) = Ok ("<math><mtext>" ++ html_escape v ++ "</mtext></math>")
  /\ html_escape v = escape_chars v
  /\ escape_char "034" = "&quot;"
  /\ escape_char "039" = "&#x27;"
  /\ (forall a b, html_escape (a ++ dquote ++ b)
                  = html_escape a ++ "&quot;" ++ html_escape b)
  /\ (forall a b, html_escape (a ++ squote ++ b)
                  = html_escape a ++ "&#x27;" ++ html_escape b).
Proof.
  intros Hattr Hch Hval Hpre.
  split; [|split; [|split; [|split; [|split]]]].
  - rewrite html_escape_chars. now apply _get_mathMl_fallback_text.
  - apply html_escape_chars.
  - reflexivity.
  - reflexivity.
  - intros a b. now rewrite !html_escape_app.
  - intros a b. now rewrite !html_escape_app.
Qed.

(** C9, witness: the raw value made of [a], a double quote and [b]. *)
Lemma _get_mathMl_alt_text_quotes_witness :
  _get_mathMl (Some (PDDomElement "Formula" None [] (Some ("a" ++ dquote ++ "b")) []))
  = Ok "<math><mtext>a&quot;b</mtext></math>".
Proof.
  destruct (_get_mathMl_alt_text_quotes
              (PDDomElement "Formula" None [] (Some ("a" ++ dquote ++ "b")) [])
              ("a" ++ dquote ++ "b")
              eq_refl (fun c H => match H with end) eq_refl eq_refl) as (Hres & _).
  rewrite Hres. reflexivity.
Defined.

(** ** getMathMLAttributes and the opening tag *)

Lemma renderAttributes_app (l1 l2 : list (string * string)) :
  renderAttributes (l1 ++ l2)%list = renderAttributes l1 ++ renderAttributes l2.
Proof.
  induction l1 as [|a l1 IH]; [reflexivity|].
  change (renderAttributes ((a :: l1) ++ l2))
    with (renderAttribute a ++ renderAttributes (l1 ++ l2)).
  change (renderAttributes (a :: l1)) with (renderAttribute a ++ renderAttributes l1).
  now rewrite IH, append_assoc.
Qed.

Lemma getMathMLAttributes_fold (node : IPDDomElement) (attrList : list string)
      (attrValues : string) :
  fold_left
    (fun attrValues attr =>
       let val := GetAttribute node attr "NSO" in
       if truthy val
       then attrValues ++ " " ++ attr ++ "=" ++ dquote ++ fmt val ++ dquote
       else attrValues)
    attrList attrValues
  = attrValues ++ renderAttributes (presentAttributes node attrList).
Proof.
  revert attrValues. induction attrList as [|attr l IH]; intros attrValues.
  - simpl. now rewrite append_nil_r.
  - match goal with |- fold_left ?f _ _ = _ => set (step := f) in * end.
    change (fold_left step (attr :: l) attrValues)
      with (fold_left step l (step attrValues attr)).
    rewrite IH. subst step. cbv beta zeta.
    change (presentAttributes node (attr :: l))
      with ((if truthy (GetAttribute node attr "NSO")
             then [(attr, fmt (GetAttribute node attr "NSO"))] else [])
            ++ presentAttributes node l)%list.
    rewrite renderAttributes_app.
    destruct (truthy (GetAttribute node attr "NSO")).
    + change (renderAttributes [(attr, fmt (GetAttribute node attr "NSO"))])
        with (renderAttribute (attr, fmt (GetAttribute node attr "NSO")) ++ EmptyString).
      rewrite append_nil_r. unfold renderAttribute. simpl fst. simpl snd.
      now rewrite !append_assoc.
    + reflexivity.
Qed.

(** [getMathMLAttributes] writes one [ name="value"] for every name of
    [attrList], in order, whose value is set and not empty. *)
Lemma getMathMLAttributes_render (node : IPDDomElement) (attrList : list string) :
  getMathMLAttributes node attrList = renderAttributes (presentAttributes node attrList).
Proof. unfold getMathMLAttributes. now rewrite getMathMLAttributes_fold. Qed.

Lemma openTag_render (node : IPDDomElement) :
  openTag node
  = "<" ++ GetTagName node ++ renderAttributes (emittedAttributes node) ++ ">".
Proof.
  unfold openTag, emittedAttributes. cbv zeta.
  rewrite !getMathMLAttributes_render, !renderAttributes_app.
  destruct (truthy (GetID node)).
  - change (renderAttributes [("id", fmt (GetID node))])
      with (renderAttribute ("id", fmt (GetID node)) ++ EmptyString).
    rewrite append_nil_r. unfold renderAttribute. simpl fst. simpl snd.
    now rewrite !append_assoc.
  - change (renderAttributes []) with EmptyString.
    change (EmptyString ++ ?x) with x.
    now rewrite !append_assoc.
Qed.

Lemma presentAttributes_In (node : IPDDomElement) (attrList : list string)
      (n v : string) :
  In (n, v) (presentAttributes node attrList)
  <-> (In n attrList /\ GetAttribute node n "NSO" = Some v /\ v <> EmptyString).
Proof.
  unfold presentAttributes. rewrite in_flat_map. split.
  - intros (attr & Hin & H). cbv zeta in H.
    destruct (truthy (GetAttribute node attr "NSO")) eqn:Ht; [|destruct H].
    destruct H as [[= <- <-]|[]].
    split; [exact Hin|]. split; [now apply truthy_fmt | now apply truthy_fmt_nonempty].
  - intros (Hin & Hget & Hne). exists n. split; [exact Hin|]. cbv zeta.
    rewrite Hget. destruct v as [|c v]; [now elim Hne|]. now left.
Qed.

(** The [match tag:] of the source picks the row of the table of the
    specification. *)
Lemma tagAttributes_table (tag : string) :
  tagAttributes tag = whitelistFor AttributeWhitelist tag.
Proof.
  unfold tagAttributes, AttributeWhitelist, whitelistFor.
  simpl existsb. rewrite ?orb_false_r. reflexivity.
Qed.

Lemma tagAttributes_no_id (tag : string) : ~ In "id" (tagAttributes tag).
Proof.
  unfold tagAttributes.
  repeat match goal with
         | |- context [if ?b then _ else _] => destruct b
         end;
    simpl; intros H;
    repeat (destruct H as [H|H]; [discriminate H|]); exact H.
Qed.

(** The attributes written for one element.  The opening tag of the markup
    of an element is its tag name followed by [ name="value"] for each of
    [emittedAttributes]; every one of them has a value that is not empty,
    and is either [id] with the identifier of the element, or one of
    [intent] and [arg], or in the row of the attribute table for the tag
    name, with the value the element has for it; a listed attribute that is
    absent or empty is not written. *)
Lemma _getNodeMathMl_attributes (node : IPDDomElement) :
  _getNodeMathMl node
  = "<" ++ GetTagName node ++ renderAttributes (emittedAttributes node) ++ ">"
    ++ contentOf node ++ "</" ++ GetTagName node ++ ">"
  /\ (forall n v,
        In (n, v) (emittedAttributes node) ->
        v <> EmptyString
        /\ ((n = "id" /\ GetID node = Some v)
            \/ ((In n universalAttributes
                 \/ In n (whitelistFor AttributeWhitelist (GetTagName node)))
                /\ GetAttribute node n "NSO" = Some v)))
  /\ (forall n,
        In n universalAttributes
        \/ In n (whitelistFor AttributeWhitelist (GetTagName node)) ->
        truthy (GetAttribute node n "NSO") = false ->
        forall v, ~ In (n, v) (emittedAttributes node))
  /\ (truthy (GetID node) = false -> forall v, ~ In ("id", v) (emittedAttributes node)).
Proof.
  split; [|split; [|split]].
  - now rewrite _getNodeMathMl_eq, openTag_render, !append_assoc.
  - intros n v Hin. unfold emittedAttributes in Hin.
    rewrite <- tagAttributes_table.
    apply in_app_or in Hin. destruct Hin as [Hin|Hin].
    + destruct (truthy (GetID node)) eqn:Hid; [|destruct Hin].
      destruct Hin as [[= <- <-]|[]].
      split; [now apply truthy_fmt_nonempty|]. left. split; [reflexivity|].
      now apply truthy_fmt.
    + apply in_app_or in Hin.
      destruct Hin as [Hin|Hin]; apply presentAttributes_In in Hin;
        destruct Hin as (Hl & Hget & Hne); (split; [exact Hne|]); right;
        (split; [|exact Hget]); [now left | now right].
  - intros n Hn Hfalse v Hin. unfold emittedAttributes in Hin.
    rewrite <- tagAttributes_table in Hn.
    apply in_app_or in Hin. destruct Hin as [Hin|Hin].
    + destruct (truthy (GetID node)); [|destruct Hin].
      destruct Hin as [[= <- <-]|[]].
      destruct Hn as [Hn|Hn].
      * simpl in Hn. destruct Hn as [Hn|[Hn|[]]]; discriminate Hn.
      * exact (tagAttributes_no_id _ Hn).
    + apply in_app_or in Hin.
      destruct Hin as [Hin|Hin]; apply presentAttributes_In in Hin;
        destruct Hin as (_ & Hget & Hne); rewrite Hget in Hfalse;
        destruct v; [now elim Hne | discriminate | now elim Hne | discriminate].
  - intros Hid v Hin. unfold emittedAttributes in Hin. rewrite Hid in Hin.
    apply in_app_or in Hin. destruct Hin as [[]|Hin].
    apply in_app_or in Hin.
    destruct Hin as [Hin|Hin]; apply presentAttributes_In in Hin;
      destruct Hin as (Hl & _).
    + simpl in Hl. destruct Hl as [Hl|[Hl|[]]]; discriminate Hl.
    + exact (tagAttributes_no_id _ Hl).
Qed.

(** C2, the example of the specification: [mfenced] with [open] and without
    [close] (once absent, once empty). *)
Lemma _getNodeMathMl_mfenced_open_only :
  _getNodeMathMl (PDDomElement "mfenced" None [("open", "NSO", "[")] None [])
  = "<mfenced open=" ++ dquote ++ "[" ++ dquote ++ "></mfenced>"
  /\ _getNodeMathMl
       (PDDomElement "mfenced" None
          [("open", "NSO", "["); ("close", "NSO", EmptyString)] None [])
     = "<mfenced open=" ++ dquote ++ "[" ++ dquote ++ "></mfenced>".
Proof. split; reflexivity. Qed.

(** C2, as stated, fails: the identifier of an element is written as the
    attribute [id], which is neither [intent] nor [arg] nor in the row of
    the table for [mi]. *)
Lemma _getNodeMathMl_emits_id :
  _getNodeMathMl (PDDomElement "mi" (Some "x1") [] (Some "x") [])
  = "<mi id=" ++ dquote ++ "x1" ++ dquote ++ ">x</mi>"
  /\ In ("id", "x1") (emittedAttributes (PDDomElement "mi" (Some "x1") [] (Some "x") []))
  /\ ~ In "id" (universalAttributes ++ whitelistFor AttributeWhitelist "mi")%list
  /\ openTagsOf (_getNodeMathMl (PDDomElement "mi" (Some "x1") [] (Some "x") []))
     = Some [("mi", [("id", "x1")])].
Proof.
  split; [reflexivity|]. split; [now left|]. split; [|reflexivity].
  simpl. intros H. repeat (destruct H as [H|H]; [discriminate H|]). exact H.
Qed.

(** ** Balance of the tags *)

(** Induction on the tree: the property holds for an element when it holds
    for its children that are elements. *)
Lemma IPDDomElement_tree_ind (P : IPDDomElement -> Prop) :
  (forall tag id attrs value children,
      Forall (fun c => match c with Some n => P n | None => True end) children ->
      P (PDDomElement tag id attrs value children)) ->
  forall node, P node.
Proof.
  intros Hstep.
  fix IH 1. intros [tag id attrs value children].
  apply Hstep.
  induction children as [|[c|] rest IHrest]; constructor; auto.
Qed.

Lemma hasChar_false_app (c : ascii) (a b : string) :
  hasChar c (a ++ b) = false <-> hasChar c a = false /\ hasChar c b = false.
Proof. rewrite hasChar_app. apply orb_false_iff. Qed.

Lemma plainInTag_app (a b : string) :
  plainInTag (a ++ b) = plainInTag a && plainInTag b.
Proof.
  unfold plainInTag. rewrite !hasChar_app.
  destruct (hasChar "<" a), (hasChar "<" b), (hasChar ">" a), (hasChar ">" b);
    reflexivity.
Qed.

(** Text without ["<"] holds no tag. *)
Lemma scanTags_text (s rest : string) :
  plainText s = true -> scanTags None (s ++ rest) = scanTags None rest.
Proof.
  unfold plainText. induction s as [|c s IH]; intros H; [reflexivity|].
  simpl hasChar in H. apply negb_true_iff, orb_false_iff in H.
  destruct H as [Hc Hs].
  change (scanTags None (String c s ++ rest))
    with (if Ascii.eqb c "<" then scanTags (Some EmptyString) (s ++ rest)
          else scanTags None (s ++ rest)).
  rewrite Hc. apply IH. now rewrite Hs.
Qed.

Lemma scanTags_inTag (b acc rest : string) :
  plainInTag b = true ->
  scanTags (Some acc) (b ++ String ">" rest)
  = match tagOfBody (acc ++ b), scanTags None rest with
    | Some t, Some ts => Some (t :: ts)
    | _, _ => None
    end.
Proof.
  revert acc. induction b as [|c b IH]; intros acc H.
  - rewrite append_nil_r. reflexivity.
  - unfold plainInTag in H. simpl hasChar in H.
    apply andb_true_iff in H. destruct H as [Hl Hg].
    apply negb_true_iff, orb_false_iff in Hl. destruct Hl as [Hcl Hbl].
    apply negb_true_iff, orb_false_iff in Hg. destruct Hg as [Hcg Hbg].
    change (scanTags (Some acc) (String c b ++ String ">" rest))
      with (if Ascii.eqb c "<" then None
            else if Ascii.eqb c ">" then
                   match tagOfBody acc, scanTags None (b ++ String ">" rest) with
                   | Some t, Some ts => Some (t :: ts)
                   | _, _ => None
                   end
                 else scanTags (Some (acc ++ String c EmptyString))
                        (b ++ String ">" rest)).
    rewrite Hcl, Hcg, IH.
    + now rewrite append_assoc.
    + unfold plainInTag. now rewrite Hbl, Hbg.
Qed.

(** A tag whose body holds neither ["<"] nor [">"] is read as one tag. *)
Lemma scanTags_tag (body rest : string) :
  plainInTag body = true ->
  scanTags None (String "<" (body ++ String ">" rest))
  = match tagOfBody body, scanTags None rest with
    | Some t, Some ts => Some (t :: ts)
    | _, _ => None
    end.
Proof.
  intros H.
  change (scanTags None (String "<" (body ++ String ">" rest)))
    with (scanTags (Some EmptyString) (body ++ String ">" rest)).
  now rewrite scanTags_inTag.
Qed.

Lemma upToSpace_name (name attrs : string) :
  hasChar " " name = false ->
  (attrs = EmptyString \/ exists attrs', attrs = String " " attrs') ->
  upToSpace (name ++ attrs) = name.
Proof.
  intros Hname Hattrs. induction name as [|c name IH].
  - destruct Hattrs as [->|[attrs' ->]]; reflexivity.
  - simpl hasChar in Hname. apply orb_false_iff in Hname. destruct Hname as [Hc Hn].
    simpl. rewrite Hc, (IH Hn). reflexivity.
Qed.

Lemma tagOfBody_open (name attrs : string) :
  plainName name = true ->
  (attrs = EmptyString \/ exists attrs', attrs = String " " attrs') ->
  tagOfBody (name ++ attrs) = Some (OpenTag name).
Proof.
  unfold plainName. intros H Hattrs.
  apply andb_true_iff in H. destruct H as [H Hslash].
  apply andb_true_iff in H. destruct H as [H Hspace].
  apply andb_true_iff in H. destruct H as [Hne _].
  apply negb_true_iff in Hspace, Hslash.
  destruct name as [|c name]; [discriminate Hne|].
  assert (Hc : c <> "/"%char).
  { intros ->. simpl in Hslash. now destruct name. }
  unfold tagOfBody.
  change (String c name ++ attrs) with (String c (name ++ attrs)).
  assert (Hup : upToSpace (String c (name ++ attrs)) = String c name)
    by exact (upToSpace_name (String c name) attrs Hspace Hattrs).
  destruct c as [[] [] [] [] [] [] [] []]; try (now rewrite Hup); now elim Hc.
Qed.

Lemma tagOfBody_close (name : string) :
  nonEmpty name = true -> tagOfBody (String "/" name) = Some (CloseTag name).
Proof. intros H. simpl. now rewrite H. Qed.

Lemma plainName_parts (name : string) :
  plainName name = true -> nonEmpty name = true /\ plainInTag name = true.
Proof.
  unfold plainName. intros H.
  apply andb_true_iff in H. destruct H as [H _].
  apply andb_true_iff in H. destruct H as [H _].
  now apply andb_true_iff in H.
Qed.

Lemma renderAttributes_shape (l : list (string * string)) :
  renderAttributes l = EmptyString
  \/ exists attrs', renderAttributes l = String " " attrs'.
Proof.
  destruct l as [|a l]; [now left|]. right.
  eexists. simpl. unfold renderAttribute. simpl. reflexivity.
Qed.

Lemma renderAttributes_plain (l : list (string * string)) :
  Forall (fun a => plainInTag (fst a) = true /\ plainInTag (snd a) = true) l ->
  plainInTag (renderAttributes l) = true.
Proof.
  induction 1 as [|a l [Hn Hv] _ IH]; [reflexivity|].
  change (renderAttributes (a :: l)) with (renderAttribute a ++ renderAttributes l).
  unfold renderAttribute.
  rewrite !plainInTag_app, Hn, Hv, IH. reflexivity.
Qed.

Lemma tagAttributes_plain (tag n : string) :
  In n (["intent"; "arg"] ++ tagAttributes tag)%list -> plainInTag n = true.
Proof.
  unfold tagAttributes.
  repeat match goal with
         | |- context [if ?b then _ else _] => destruct b
         end;
    simpl; intros H;
    repeat (destruct H as [H|H]; [subst n; reflexivity|]); destruct H.
Qed.

Lemma presentAttributes_app_list (node : IPDDomElement) (l1 l2 : list string) :
  (presentAttributes node l1 ++ presentAttributes node l2)%list
  = presentAttributes node (l1 ++ l2).
Proof. unfold presentAttributes. now rewrite flat_map_app. Qed.

Lemma presentAttributes_plain (node : IPDDomElement) (attrList : list string) :
  (forall n, In n attrList -> plainInTag n = true) ->
  forallb (fun attr => plainIfSet (GetAttribute node attr "NSO")) attrList = true ->
  Forall (fun a => plainInTag (fst a) = true /\ plainInTag (snd a) = true)
         (presentAttributes node attrList).
Proof.
  intros Hnames Hvals. apply Forall_forall. intros [n v] Hin.
  apply presentAttributes_In in Hin. destruct Hin as (Hl & Hget & Hne).
  split; [now apply Hnames|]. simpl snd.
  rewrite forallb_forall in Hvals. specialize (Hvals n Hl).
  unfold plainIfSet in Hvals. rewrite Hget in Hvals.
  destruct v as [|c v]; [now elim Hne|]. exact Hvals.
Qed.

(** The attributes of the opening tag of a markup-free element hold neither
    ["<"] nor [">"]. *)
Lemma emittedAttributes_plain (node : IPDDomElement) :
  plainIfSet (GetID node) = true ->
  forallb (fun attr => plainIfSet (GetAttribute node attr "NSO"))
          (["intent"; "arg"] ++ tagAttributes (GetTagName node))%list = true ->
  plainInTag (renderAttributes (emittedAttributes node)) = true.
Proof.
  intros Hid Hattrs. apply renderAttributes_plain.
  unfold emittedAttributes. apply Forall_app. split.
  - destruct (truthy (GetID node)) eqn:Ht; constructor; [|constructor].
    split; [reflexivity|]. simpl snd. unfold plainIfSet in Hid.
    now rewrite Ht in Hid.
  - rewrite presentAttributes_app_list.
    apply presentAttributes_plain; [apply tagAttributes_plain | exact Hattrs].
Qed.

Lemma markupFree_eq (node : IPDDomElement) :
  markupFree node
  = plainName (GetTagName node)
    && plainIfSet (GetID node)
    && forallb (fun attr => plainIfSet (GetAttribute node attr "NSO"))
         (["intent"; "arg"] ++ tagAttributes (GetTagName node))%list
    && (if truthy (GetValue node) then plainText (fmt (GetValue node))
        else forallb (fun child =>
                        match child with
                        | Some subNode => markupFree subNode
                        | None => true
                        end) (childrenOf node)).
Proof. destruct node; reflexivity. Qed.

Lemma tagsOf_eq (node : IPDDomElement) :
  tagsOf node
  = OpenTag (GetTagName node)
    :: ((if truthy (GetValue node) then []
         else flat_map (fun child =>
                          match child with
                          | Some subNode => tagsOf subNode
                          | None => []
                          end) (childrenOf node))
        ++ [CloseTag (GetTagName node)])%list.
Proof. destruct node; reflexivity. Qed.

Lemma _getNodeMathMl_shape (node : IPDDomElement) (rest : string) :
  _getNodeMathMl node ++ rest
  = String "<"
      ((GetTagName node ++ renderAttributes (emittedAttributes node))
       ++ String ">"
            (contentOf node
             ++ String "<" (String "/" (GetTagName node) ++ String ">" rest))).
Proof.
  rewrite _getNodeMathMl_eq, openTag_render, !append_assoc. reflexivity.
Qed.

Lemma matchTags_children (children : list (option IPDDomElement)) :
  Forall (fun c => match c with
                   | Some n => forall opened ts,
                       matchTags opened (tagsOf n ++ ts) = matchTags opened ts
                   | None => True
                   end) children ->
  forall opened ts,
    matchTags opened
      (flat_map (fun child => match child with
                              | Some subNode => tagsOf subNode
                              | None => []
                              end) children ++ ts)
    = matchTags opened ts.
Proof.
  induction 1 as [|[c|] rest Hc _ IH]; intros opened ts.
  - reflexivity.
  - simpl flat_map. now rewrite <- app_assoc, Hc, IH.
  - simpl flat_map. apply IH.
Qed.

(** The tags written for an element close one another: they leave the
    open tags before them and the tags behind them as they were. *)
Lemma matchTags_tagsOf (node : IPDDomElement) :
  forall opened ts, matchTags opened (tagsOf node ++ ts) = matchTags opened ts.
Proof.
  induction node as [tag id attrs value children IH] using IPDDomElement_tree_ind.
  intros opened ts. rewrite tagsOf_eq.
  simpl GetTagName. simpl GetValue. simpl childrenOf.
  rewrite <- app_comm_cons, <- app_assoc.
  change (matchTags opened (OpenTag tag :: ?l)) with (matchTags (tag :: opened) l).
  destruct (truthy value).
  - simpl. now rewrite String.eqb_refl.
  - rewrite (matchTags_children children IH). simpl. now rewrite String.eqb_refl.
Qed.

Lemma scanTags_children (children : list (option IPDDomElement)) :
  Forall (fun c => match c with
                   | Some n => markupFree n = true ->
                               forall rest,
                                 scanTags None (_getNodeMathMl n ++ rest)
                                 = option_map (app (tagsOf n)) (scanTags None rest)
                   | None => True
                   end) children ->
  forallb (fun child => match child with
                        | Some subNode => markupFree subNode
                        | None => true
                        end) children = true ->
  forall rest,
    scanTags None (childrenMarkup children ++ rest)
    = option_map
        (app (flat_map (fun child => match child with
                                     | Some subNode => tagsOf subNode
                                     | None => []
                                     end) children))
        (scanTags None rest).
Proof.
  induction 1 as [|[c|] l Hc _ IH]; intros Hfree rest.
  - simpl. now destruct (scanTags None rest).
  - simpl forallb in Hfree. apply andb_true_iff in Hfree. destruct Hfree as [Hf Hl].
    simpl childrenMarkup. rewrite append_assoc, (Hc Hf), (IH Hl).
    simpl flat_map. destruct (scanTags None rest) as [ts|]; simpl; [|reflexivity].
    now rewrite app_assoc.
  - simpl forallb in Hfree. simpl childrenMarkup. simpl flat_map. now apply IH.
Qed.

(** The scanner reads from the markup of a markup-free element exactly the
    tags written for it. *)
Lemma scanTags_markup (node : IPDDomElement) :
  markupFree node = true ->
  forall rest,
    scanTags None (_getNodeMathMl node ++ rest)
    = option_map (app (tagsOf node)) (scanTags None rest).
Proof.
  induction node as [tag id attrs value children IH] using IPDDomElement_tree_ind.
  intros Hfree rest.
  rewrite markupFree_eq in Hfree.
  apply andb_true_iff in Hfree. destruct Hfree as [Hfree Hcontent].
  apply andb_true_iff in Hfree. destruct Hfree as [Hfree Hattrs].
  apply andb_true_iff in Hfree. destruct Hfree as [Hname Hid].
  destruct (plainName_parts _ Hname) as [Hne Hplain].
  rewrite _getNodeMathMl_shape, tagsOf_eq.
  rewrite scanTags_tag
    by (rewrite plainInTag_app, Hplain; now apply emittedAttributes_plain).
  rewrite (tagOfBody_open _ _ Hname (renderAttributes_shape _)).
  assert (Hclose : forall rest,
             scanTags None
               (String "<" (String "/" (GetTagName (PDDomElement tag id attrs value children))
                            ++ String ">" rest))
             = option_map (cons (CloseTag tag)) (scanTags None rest)).
  { intros r. rewrite scanTags_tag.
    - simpl GetTagName. rewrite (tagOfBody_close tag Hne).
      now destruct (scanTags None r).
    - simpl GetTagName. unfold plainInTag in *. simpl hasChar. exact Hplain. }
  unfold contentOf. simpl GetTagName in *. simpl GetValue in *. simpl childrenOf in *.
  destruct (truthy value).
  - rewrite (scanTags_text _ _ Hcontent), Hclose.
    now destruct (scanTags None rest).
  - rewrite (scanTags_children children IH Hcontent), Hclose.
    destruct (scanTags None rest) as [ts|]; simpl; [|reflexivity].
    now rewrite <- app_assoc.
Qed.

(** C1, the part the code keeps.  For an element whose tree is markup-free
    (tag names that are names, identifiers and listed attribute values
    without ["<"] and [">"], raw values without ["<"]), whether or not some
    children fail to be elements, the tags of the returned string are
    exactly the tags written for the tree, and they are balanced: every
    closing tag closes the innermost open tag and has its name, and no tag
    stays open. *)
Theorem _getNodeMathMl_balanced (node : IPDDomElement) :
  markupFree node = true ->
  scanTags None (_getNodeMathMl node) = Some (tagsOf node)
  /\ balancedTags (_getNodeMathMl node) = true.
Proof.
  intros Hfree.
  assert (Hscan : scanTags None (_getNodeMathMl node) = Some (tagsOf node)).
  { rewrite <- (append_nil_r (_getNodeMathMl node)).
    rewrite (scanTags_markup node Hfree EmptyString). simpl.
    now rewrite app_nil_r. }
  split; [exact Hscan|].
  unfold balancedTags. rewrite Hscan.
  rewrite <- (app_nil_r (tagsOf node)). now rewrite matchTags_tagsOf.
Qed.

(** A tree in which the second child of [mrow] and the second child of
    [math] are no elements. *)
Lemma _getNodeMathMl_balanced_witness :
  balancedTags
    (_getNodeMathMl
       (PDDomElement "math" None [] None
          [Some (PDDomElement "mrow" None [] None
                   [Some (PDDomElement "mi" (Some "i1")
                            [("mathvariant", "NSO", "bold")] (Some "x") []);
                    None;
                    Some (PDDomElement "mo" None [] (Some "+") [])]);
           None]))
  = true.
Proof.
  apply (_getNodeMathMl_balanced
           (PDDomElement "math" None [] None
              [Some (PDDomElement "mrow" None [] None
                       [Some (PDDomElement "mi" (Some "i1")
                                [("mathvariant", "NSO", "bold")] (Some "x") []);
                        None;
                        Some (PDDomElement "mo" None [] (Some "+") [])]);
               None])).
  reflexivity.
Defined.

(** C1, where the code departs from it: a raw value is written as it is,
    not escaped as the fallback tier of [_get_mathMl] escapes its raw value.
    The operator ["<"] gives a string whose second tag never ends, and a raw
    value that holds an opening tag gives a string in which that tag is not
    closed: the returned string is no XML string. *)
Lemma _getNodeMathMl_unescaped_value :
  _getNodeMathMl (PDDomElement "mo" None [] (Some "<") []) = "<mo><</mo>"
  /\ balancedTags (_getNodeMathMl (PDDomElement "mo" None [] (Some "<") [])) = false
  /\ _getNodeMathMl (PDDomElement "mtext" None [] (Some "<b>") []) = "<mtext><b></mtext>"
  /\ scanTags None (_getNodeMathMl (PDDomElement "mtext" None [] (Some "<b>") []))
     = Some [OpenTag "mtext"; OpenTag "b"; CloseTag "mtext"]
  /\ balancedTags (_getNodeMathMl (PDDomElement "mtext" None [] (Some "<b>") [])) = false.
Proof. repeat split; reflexivity. Qed.

(** A child that is no element is left out, and the others keep their
    order. *)
Lemma _getNodeMathMl_child_failure :
  _getNodeMathMl
    (PDDomElement "mrow" None [] None
       [Some (PDDomElement "mi" None [] (Some "a") []);
        None;
        Some (PDDomElement "mn" None [] (Some "2") [])])
  = "<mrow><mi>a</mi><mn>2</mn></mrow>".
Proof. reflexivity. Qed.

Lemma _get_mathMl_no_node : _get_mathMl None = Raise LookupError.
Proof. reflexivity. Qed.

(** * Further properties of the module *)

(** ** normalizeStdName: the level *)

Lemma normalizeStdName_raises (s : string) (e : exn) :
  normalizeStdName s = Raise e -> e = LookupError.
Proof.
  unfold normalizeStdName. destruct (isHeadingRange s) eqn:Hr.
  - rewrite isHeadingRange_shape in Hr.
    destruct (headingShape_index s Hr) as [level ->]. discriminate.
  - destruct (dict_get stdNamesToRoles s) as [r|e'] eqn:Hd; [discriminate|].
    apply dict_get_raises in Hd. subst e'. now intros [= <-].
Qed.

(** X1.  A level is only ever returned together with the role [HEADING],
    and it is one of the one-character strings ["1"] to ["6"]. *)
Theorem normalizeStdName_level_digit (s : string) (r : Role.t) (level : string) :
  normalizeStdName s = Ok (r, Some level) ->
  r = Role.HEADING /\ In level ["1"; "2"; "3"; "4"; "5"; "6"].
Proof.
  unfold normalizeStdName. destruct (isHeadingRange s) eqn:Hr.
  - rewrite isHeadingRange_shape in Hr.
    destruct s as [|a [|c rest]]; [discriminate Hr | |].
    + destruct a as [[] [] [] [] [] [] [] []]; discriminate Hr.
    + change (str_index (String a (String c rest)) 1) with (Ok (String c EmptyString)).
      intros [= <- <-]. split; [reflexivity|].
      destruct a as [[] [] [] [] [] [] [] []]; try discriminate Hr.
      destruct c as [[] [] [] [] [] [] [] []]; simpl in Hr; try discriminate Hr;
        simpl; auto 10.
  - destruct (dict_get stdNamesToRoles s) as [r'|[]]; discriminate.
Qed.

(** X1, witness. *)
Lemma normalizeStdName_level_digit_witness :
  Role.HEADING = Role.HEADING /\ In "3" ["1"; "2"; "3"; "4"; "5"; "6"].
Proof. apply (normalizeStdName_level_digit "H3abc"). reflexivity. Defined.

(** ** AcrobatNode._get_role *)

Lemma Role_eqb_eq (a b : Role) : Role_eqb a b = true <-> a = b.
Proof.
  unfold Role_eqb. destruct (Role_eq_dec a b); split; auto; discriminate.
Qed.

Lemma State_eqb_eq (a b : State) : State_eqb a b = true <-> a = b.
Proof.
  unfold State_eqb. destruct (State_eq_dec a b); split; auto; discriminate.
Qed.

Lemma normalizeStdName_any_raises (stdName : option string) (e : exn) :
  normalizeStdName_any stdName = Raise e -> e = LookupError.
Proof.
  destruct stdName as [s|]; simpl; [apply normalizeStdName_raises | now intros [= <-]].
Qed.

(** X2.  When the call of [GetStdName] fails only with [AttributeError] or
    [COMError], [_get_role] always answers with a role (no exception leaves
    it, whatever name is answered), and the role is never [PANE]. *)
Theorem _get_role_total_not_PANE (GetStdName : result (option string)) (super_role : Role) :
  (forall e, GetStdName = Raise e -> e = AttributeError \/ e = COMError) ->
  exists r, _get_role GetStdName super_role = Ok r /\ r <> PANE.
Proof.
  intros Hexn.
  assert (Hfall : (if Role_eqb super_role PANE then TEXTFRAME else super_role) <> PANE).
  { destruct (Role_eqb super_role PANE) eqn:He; [discriminate|].
    intros ->. now rewrite (proj2 (Role_eqb_eq PANE PANE) eq_refl) in He. }
  unfold _get_role. destruct GetStdName as [stdName|e].
  - destruct (normalizeStdName_any stdName) as [[r l]|e] eqn:Hn.
    + exists (Std r). split; [reflexivity | discriminate].
    + apply normalizeStdName_any_raises in Hn. subst e. cbv zeta.
      eexists. split; [reflexivity | exact Hfall].
  - destruct (Hexn e eq_refl) as [->| ->]; cbv zeta;
      (eexists; split; [reflexivity | exact Hfall]).
Qed.

(** X2, witness: no [pdDomNode], and a pane below. *)
Lemma _get_role_total_not_PANE_witness :
  exists r, _get_role (Raise AttributeError) PANE = Ok r /\ r <> PANE.
Proof.
  apply _get_role_total_not_PANE.
  intros e [= <-]. now left.
Defined.

(** X3.  A standard name that [normalizeStdName] knows decides the role,
    whatever the role of the base class is; in every other case the role of
    the base class is answered, with [TEXTFRAME] in the place of [PANE]. *)
Theorem _get_role_std_name_first (GetStdName : result (option string)) (super_role : Role) :
  (forall e, GetStdName = Raise e -> e = AttributeError \/ e = COMError) ->
  (forall s r level,
      GetStdName = Ok (Some s) -> normalizeStdName s = Ok (r, level) ->
      _get_role GetStdName super_role = Ok (Std r))
  /\ ((forall s r level,
         GetStdName = Ok (Some s) -> normalizeStdName s <> Ok (r, level)) ->
      _get_role GetStdName super_role
      = Ok (if Role_eqb super_role PANE then TEXTFRAME else super_role)).
Proof.
  intros Hexn. split.
  - intros s r level -> Hn. unfold _get_role. simpl normalizeStdName_any.
    now rewrite Hn.
  - intros Hnot. unfold _get_role. destruct GetStdName as [[s|]|e].
    + simpl normalizeStdName_any.
      destruct (normalizeStdName s) as [[r l]|e] eqn:Hn.
      * now elim (Hnot s r l eq_refl).
      * apply normalizeStdName_raises in Hn. now subst e.
    + reflexivity.
    + now destruct (Hexn e eq_refl) as [->| ->].
Qed.

(** X3, witness: the name ["H2"] over a base role [PANE]. *)
Lemma _get_role_std_name_first_witness :
  _get_role (Ok (Some "H2")) PANE = Ok (Std Role.HEADING).
Proof.
  apply (proj1 (_get_role_std_name_first (Ok (Some "H2")) PANE
                  (fun e H => match H in _ = r return
                                    match r with Ok _ => True | Raise _ => _ end
                              with eq_refl => I end))
           "H2" Role.HEADING (Some "2")); reflexivity.
Defined.

(** ** AcrobatNode._isEqual *)

Lemma optZ_eqb_sym (a b : option Z) : optZ_eqb a b = optZ_eqb b a.
Proof. destruct a, b; simpl; try reflexivity. apply Z.eqb_sym. Qed.

(** X4.  [_isEqual] is symmetric whenever the comparison of the base class
    is: the test on window and identifiers does not depend on the side. *)
Theorem _isEqual_symmetric (super_isEqual : AcrobatNodeId -> AcrobatNodeId -> bool) :
  (forall a b, super_isEqual a b = super_isEqual b a) ->
  forall self other,
    _isEqual super_isEqual self other = _isEqual super_isEqual other self.
Proof.
  intros Hsym self other. unfold _isEqual.
  rewrite (Z.eqb_sym (windowHandle self)), (optZ_eqb_sym (accID self)), (Hsym self other).
  now destruct (windowHandle other =? windowHandle self)%Z,
               (truthyInt (accID self)), (truthyInt (accID other)).
Qed.

(** X4, witness: a base comparison by window alone. *)
Lemma _isEqual_symmetric_witness :
  _isEqual (fun a b => Z.eqb (windowHandle a) (windowHandle b))
           {| windowHandle := 7; accID := Some 3%Z |}
           {| windowHandle := 7; accID := Some 4%Z |}
  = _isEqual (fun a b => Z.eqb (windowHandle a) (windowHandle b))
             {| windowHandle := 7; accID := Some 4%Z |}
             {| windowHandle := 7; accID := Some 3%Z |}.
Proof.
  apply (_isEqual_symmetric (fun a b => Z.eqb (windowHandle a) (windowHandle b))).
  intros a b. apply Z.eqb_sym.
Defined.

(** ** BadFocusStates._get_states and findExtraOverlayClasses *)

Lemma state_in_filter (p : State -> bool) (s : State) (S : stateSet) :
  state_in s (filter p S) = state_in s S && p s.
Proof.
  unfold state_in. induction S as [|x S IH]; [reflexivity|].
  simpl filter. destruct (p x) eqn:Hpx; simpl existsb; rewrite IH.
  - destruct (State_eqb s x) eqn:He; simpl; [|reflexivity].
    apply State_eqb_eq in He. subst x. now rewrite Hpx.
  - destruct (State_eqb s x) eqn:He; simpl; [|reflexivity].
    apply State_eqb_eq in He. subst x. rewrite Hpx. now rewrite andb_false_r.
Qed.

Lemma state_subset_three (a b c : State) (S : stateSet) :
  state_subset [a; b; c] S = state_in a S && state_in b S && state_in c S.
Proof. unfold state_subset. simpl. now rewrite andb_true_r, andb_assoc. Qed.

Ltac appended_is extra :=
  exists extra;
  split; [first [reflexivity | rewrite <- app_assoc; reflexivity]|];
  split; [reflexivity|];
  split; [simpl; lia|];
  simpl; intros c H; tauto.

(** X5.  [findExtraOverlayClasses] keeps what [clsList] holds, appends at
    most one of the five special classes of the module, and always ends the
    list with [AcrobatNode]. *)
Theorem findExtraOverlayClasses_appends (OBJID_CLIENT : Z) (obj : NVDAObject)
        (clsList : list overlayClass) :
  exists extra,
    findExtraOverlayClasses OBJID_CLIENT obj clsList
    = (clsList ++ extra ++ [AcrobatNode])%list
    /\ findExtraOverlayClasses OBJID_CLIENT obj [] = (extra ++ [AcrobatNode])%list
    /\ (List.length extra <= 1)%nat
    /\ (forall c, In c extra ->
                  In c [Document; RootTextNode; RootNode; BadFocusStates; EditableTextNode]).
Proof.
  unfold findExtraOverlayClasses. cbv zeta.
  repeat match goal with
         | |- context [if ?b then _ else _] => destruct b
         end;
    first [ appended_is [Document] | appended_is [RootTextNode]
          | appended_is [RootNode] | appended_is [BadFocusStates]
          | appended_is [EditableTextNode] | appended_is (@nil overlayClass) ].
Qed.

Ltac overlay_cases :=
  unfold findExtraOverlayClasses; cbv zeta;
  repeat match goal with
         | |- context [if ?b then _ else _] => destruct b eqn:?
         end.

Ltac in_singletons H :=
  simpl in H;
  repeat match type of H with
         | _ \/ _ => destruct H as [H|H]
         | False => destruct H
         | _ = _ => try discriminate H
         end.

(** X6.  [Document] is appended exactly for an object whose role is
    [DOCUMENT], or [PAGE] with the state [READONLY]: the identifiers of the
    event and the other states play no part. *)
Theorem findExtraOverlayClasses_Document (OBJID_CLIENT : Z) (obj : NVDAObject) :
  In Document (findExtraOverlayClasses OBJID_CLIENT obj [])
  <-> (role obj = DOCUMENT
       \/ (role obj = PAGE /\ state_in READONLY (states obj) = true)).
Proof.
  split.
  - overlay_cases; intros H; in_singletons H.
    match goal with
    | Hc : (_ || _) = true |- _ =>
        apply orb_true_iff in Hc; destruct Hc as [Hdoc|Hpage]
    end.
    + left. now apply Role_eqb_eq.
    + right. apply andb_true_iff in Hpage. destruct Hpage as [Hr Hs].
      split; [now apply Role_eqb_eq | exact Hs].
  - intros H.
    assert (Hc : Role_eqb (role obj) DOCUMENT
                 || (Role_eqb (role obj) PAGE && state_in READONLY (states obj)) = true).
    { destruct H as [H|[H Hs]]; rewrite H; [reflexivity|]. rewrite Hs. reflexivity. }
    unfold findExtraOverlayClasses. cbv zeta. rewrite Hc. now left.
Qed.

(** X7.  A root class is appended only when [event_childID] is [0] and
    [event_objectID] is [OBJID_CLIENT] (an identifier that is [None] never
    qualifies) and the object is not taken as a document; of the two,
    [RootTextNode] is the one for the role [EDITABLETEXT]. *)
Theorem findExtraOverlayClasses_root (OBJID_CLIENT : Z) (obj : NVDAObject)
        (c : overlayClass) :
  c = RootNode \/ c = RootTextNode ->
  In c (findExtraOverlayClasses OBJID_CLIENT obj []) ->
  event_childID obj = Some 0%Z
  /\ event_objectID obj = Some OBJID_CLIENT
  /\ ~ In Document (findExtraOverlayClasses OBJID_CLIENT obj [])
  /\ (c = RootTextNode <-> role obj = EDITABLETEXT).
Proof.
  intros Hc. revert Hc. overlay_cases; intros Hc H; in_singletons H;
    destruct Hc as [Hc|Hc]; subst c; try discriminate H;
    match goal with
    | Hids : (optZ_eqb _ _ && optZ_eqb _ _) = true |- _ =>
        apply andb_true_iff in Hids;
        let Hch' := fresh "Hch" in let Hob' := fresh "Hob" in
        destruct Hids as [Hch' Hob']
    end;
    destruct (event_childID obj) as [ch|]; try discriminate Hch;
    destruct (event_objectID obj) as [ob|]; try discriminate Hob;
    simpl in Hch, Hob; apply Z.eqb_eq in Hch, Hob; subst ch ob;
    (split; [reflexivity|]); (split; [reflexivity|]);
    (split; [intros Hd; in_singletons Hd|]);
    match goal with
    | Hr : Role_eqb _ EDITABLETEXT = true |- _ =>
        apply Role_eqb_eq in Hr; split; intros; [exact Hr | reflexivity || discriminate]
    | Hr : Role_eqb _ EDITABLETEXT = false |- _ =>
        split; intros He; [discriminate He|];
        apply Role_eqb_eq in He; rewrite He in Hr; discriminate Hr
    end.
Qed.

(** X7, witness: the client object of a window, an editable text. *)
Lemma findExtraOverlayClasses_root_witness :
  event_childID {| role := EDITABLETEXT; states := []; event_childID := Some 0%Z;
                   event_objectID := Some (-4)%Z |} = Some 0%Z
  /\ event_objectID {| role := EDITABLETEXT; states := []; event_childID := Some 0%Z;
                       event_objectID := Some (-4)%Z |} = Some (-4)%Z
  /\ ~ In Document
         (findExtraOverlayClasses (-4)
            {| role := EDITABLETEXT; states := []; event_childID := Some 0%Z;
               event_objectID := Some (-4)%Z |} [])
  /\ (RootTextNode = RootTextNode <-> EDITABLETEXT = EDITABLETEXT).
Proof.
  apply (findExtraOverlayClasses_root (-4)
           {| role := EDITABLETEXT; states := []; event_childID := Some 0%Z;
              event_objectID := Some (-4)%Z |} RootTextNode).
  - now right.
  - simpl. now left.
Defined.

Lemma filter_twice {A : Type} (p : A -> bool) (l : list A) :
  filter p (filter p l) = filter p l.
Proof.
  induction l as [|x l IH]; [reflexivity|].
  simpl. destruct (p x) eqn:Hp; simpl; rewrite ?Hp, IH; reflexivity.
Qed.

(** X8.  [_get_states] of [BadFocusStates] removes [FOCUSABLE] and [FOCUSED]
    and nothing else, adds nothing, and applying it again changes nothing. *)
Theorem BadFocusStates_get_states_spec (super_states : stateSet) :
  (forall s,
      state_in s (BadFocusStates_get_states super_states) = true
      <-> (state_in s super_states = true /\ s <> FOCUSABLE /\ s <> FOCUSED))
  /\ BadFocusStates_get_states (BadFocusStates_get_states super_states)
     = BadFocusStates_get_states super_states.
Proof.
  split; [|apply filter_twice].
  intros s. unfold BadFocusStates_get_states. rewrite state_in_filter.
  rewrite andb_true_iff, negb_true_iff. unfold state_in at 2. simpl existsb.
  rewrite orb_false_r, orb_false_iff.
  split.
  - intros (Hin & Hf1 & Hf2). split; [exact Hin|].
    split; intros ->.
    + now rewrite (proj2 (State_eqb_eq FOCUSABLE FOCUSABLE) eq_refl) in Hf1.
    + now rewrite (proj2 (State_eqb_eq FOCUSED FOCUSED) eq_refl) in Hf2.
  - intros (Hin & Hn1 & Hn2). split; [exact Hin|].
    split.
    + destruct (State_eqb s FOCUSABLE) eqn:He; [|reflexivity].
      apply State_eqb_eq in He. contradiction.
    + destruct (State_eqb s FOCUSED) eqn:He; [|reflexivity].
      apply State_eqb_eq in He. contradiction.
Qed.

(** X9.  An object for which [findExtraOverlayClasses] picks
    [BadFocusStates] is an editable text with the states [READONLY],
    [FOCUSABLE] and [LINKED]; the states the class then reports still hold
    [READONLY] and [LINKED], and neither [FOCUSABLE] nor [FOCUSED]; and
    [EditableTextNode] is not picked for it. *)
Theorem findExtraOverlayClasses_BadFocusStates (OBJID_CLIENT : Z) (obj : NVDAObject) :
  In BadFocusStates (findExtraOverlayClasses OBJID_CLIENT obj []) ->
  role obj = EDITABLETEXT
  /\ state_in FOCUSABLE (states obj) = true
  /\ state_in READONLY (BadFocusStates_get_states (states obj)) = true
  /\ state_in LINKED (BadFocusStates_get_states (states obj)) = true
  /\ state_in FOCUSABLE (BadFocusStates_get_states (states obj)) = false
  /\ state_in FOCUSED (BadFocusStates_get_states (states obj)) = false
  /\ ~ In EditableTextNode (findExtraOverlayClasses OBJID_CLIENT obj []).
Proof.
  overlay_cases; intros H; in_singletons H.
  match goal with
  | Hr : Role_eqb _ EDITABLETEXT = true,
    Hs : state_subset _ _ = true |- _ =>
      apply Role_eqb_eq in Hr; rewrite state_subset_three in Hs;
      apply andb_true_iff in Hs; destruct Hs as [Hs Hlinked];
      apply andb_true_iff in Hs; destruct Hs as [Hreadonly Hfocusable]
  end.
  unfold BadFocusStates_get_states. rewrite !state_in_filter.
  rewrite Hreadonly, Hlinked.
  repeat split; try assumption; try reflexivity.
  - apply andb_false_r.
  - apply andb_false_r.
  - intros Hd. in_singletons Hd.
Qed.

(** X9, witness: a text below a link. *)
Lemma findExtraOverlayClasses_BadFocusStates_witness :
  state_in READONLY
    (BadFocusStates_get_states [FOCUSED; LINKED; FOCUSABLE; READONLY]) = true
  /\ state_in FOCUSABLE
       (BadFocusStates_get_states [FOCUSED; LINKED; FOCUSABLE; READONLY]) = false.
Proof.
  pose proof (findExtraOverlayClasses_BadFocusStates (-4)
                {| role := EDITABLETEXT;
                   states := [FOCUSED; LINKED; FOCUSABLE; READONLY];
                   event_childID := Some 5%Z; event_objectID := None |}
                (or_introl eq_refl)) as H.
  split; [exact (proj1 (proj2 (proj2 H))) | exact (proj1 (proj2 (proj2 (proj2 (proj2 H)))))].
Defined.

(** ** _getNodeMathMl and getMathMLAttributes, further *)

Lemma childrenMarkup_elements (children : list (option IPDDomElement)) :
  childrenMarkup (filter isElement children) = childrenMarkup children.
Proof.
  induction children as [|[c|] rest IH]; simpl; [reflexivity | now rewrite IH | exact IH].
Qed.

(** X10.  The children that fail to resolve as elements leave no trace: the
    markup of an element is that of the same element with only its
    resolvable children, in their order. *)
Theorem _getNodeMathMl_failed_children_invisible
        (tag : string) (id : option string) (attrs : list (string * string * string))
        (value : option string) (children : list (option IPDDomElement)) :
  _getNodeMathMl (PDDomElement tag id attrs value children)
  = _getNodeMathMl (PDDomElement tag id attrs value (filter isElement children)).
Proof.
  rewrite !_getNodeMathMl_eq. unfold contentOf.
  simpl GetValue. simpl childrenOf. simpl GetTagName.
  rewrite childrenMarkup_elements. reflexivity.
Qed.

(** X11.  [getMathMLAttributes] goes through the list from left to right:
    the text for two lists one after the other is the text for the first
    followed by the text for the second, and the text for no attribute is
    empty. *)
Theorem getMathMLAttributes_app (node : IPDDomElement) (l1 l2 : list string) :
  getMathMLAttributes node (l1 ++ l2)
  = getMathMLAttributes node l1 ++ getMathMLAttributes node l2
  /\ getMathMLAttributes node [] = EmptyString.
Proof.
  split; [|reflexivity].
  rewrite !getMathMLAttributes_render, <- presentAttributes_app_list.
  apply renderAttributes_app.
Qed.

Lemma presentAttributes_names (node : IPDDomElement) (attrList : list string) :
  map fst (presentAttributes node attrList)
  = filter (fun attr => truthy (GetAttribute node attr "NSO")) attrList.
Proof.
  unfold presentAttributes. induction attrList as [|attr l IH]; [reflexivity|].
  simpl. destruct (truthy (GetAttribute node attr "NSO")); simpl; now rewrite IH.
Qed.

Lemma attribute_names_NoDup (tag : string) :
  NoDup ("id" :: ["intent"; "arg"] ++ tagAttributes tag)%list.
Proof.
  unfold tagAttributes.
  repeat match goal with
         | |- context [if ?b then _ else _] => destruct b
         end;
    simpl;
    repeat (constructor;
            [simpl; intros H;
             repeat (destruct H as [H|H]; [discriminate H|]); exact H|]);
    constructor.
Qed.

(** The names of the attributes written for one element are pairwise
    different. *)
Lemma emittedAttributes_NoDup (node : IPDDomElement) :
  openTag node
  = "<" ++ GetTagName node ++ renderAttributes (emittedAttributes node) ++ ">"
  /\ NoDup (map fst (emittedAttributes node)).
Proof.
  split; [apply openTag_render|].
  unfold emittedAttributes.
  rewrite presentAttributes_app_list, map_app, presentAttributes_names.
  pose proof (attribute_names_NoDup (GetTagName node)) as Hnd.
  inversion Hnd as [|x l Hnotin Hrest]; subst.
  set (names := filter (fun attr => truthy (GetAttribute node attr "NSO"))
                       (["intent"; "arg"] ++ tagAttributes (GetTagName node))%list).
  assert (Hnames : NoDup names) by now apply NoDup_filter.
  assert (Hid : ~ In "id" names).
  { intros Hin. apply filter_In in Hin. now apply Hnotin. }
  destruct (truthy (GetID node)).
  - change (NoDup ("id" :: names)). now constructor.
  - exact Hnames.
Qed.

(** ** _get_mathMl, further *)

(** X13.  As long as the calls on the node themselves succeed
    ([GetAttribute], [GetChildCount], [GetTagName], [GetID] and [GetValue]
    raise nothing, as in this model, and [pdDomNode] is assigned),
    [_get_mathMl] fails in two cases only: with [LookupError] when there is
    no node, and with [AttributeError] when the node has no vendor
    attribute, no child tagged ["math"] and no raw value. *)
Theorem _get_mathMl_errors (pdDomNode : option IPDDomElement) (e : exn) :
  _get_mathMl pdDomNode = Raise e
  <-> ((pdDomNode = None /\ e = LookupError)
       \/ (exists node,
              pdDomNode = Some node
              /\ truthy (GetAttribute node "MSFT_MathML" "MSFT_Office") = false
              /\ firstMathChild (childrenOf node) = None
              /\ GetValue node = None
              /\ e = AttributeError)).
Proof.
  destruct pdDomNode as [node|].
  - rewrite _get_mathMl_tiers. cbv zeta. split.
    + intros H. right. exists node.
      destruct (truthy (GetAttribute node "MSFT_MathML" "MSFT_Office")); [discriminate H|].
      destruct (firstMathChild (childrenOf node)); [discriminate H|].
      unfold fallbackTier in H. destruct (GetValue node) as [v|].
      * destruct (startswith v "<math"); discriminate H.
      * injection H as <-. repeat split; reflexivity.
    + intros [[H _]|(node' & [= <-] & Ha & Hc & Hv & ->)]; [discriminate H|].
      now rewrite Ha, Hc, Hv.
  - simpl. split.
    + intros [= <-]. now left.
    + intros [[_ ->]|(node & H & _)]; [reflexivity | discriminate H].
Qed.

Lemma firstMathChild_tag (children : list (option IPDDomElement)) (child : IPDDomElement) :
  firstMathChild children = Some child ->
  GetTagName child = "math" /\ In (Some child) children.
Proof.
  induction children as [|[c|] rest IH]; simpl; [discriminate| |].
  - destruct (String.eqb_spec (GetTagName c) "math") as [He|_].
    + intros [= <-]. split; [exact He | now left].
    + intros H. destruct (IH H) as [Ht Hin]. split; [exact Ht | now right].
  - intros H. destruct (IH H) as [Ht Hin]. split; [exact Ht | now right].
Qed.

Lemma prefix_inv (p s : string) :
  String.prefix p s = true -> exists rest, s = p ++ rest.
Proof.
  revert s. induction p as [|c p IH]; intros s H.
  - now exists s.
  - destruct s as [|c' s]; [discriminate H|]. simpl in H.
    destruct (ascii_dec c c') as [->|_]; [|discriminate H].
    destruct (IH s H) as [rest ->]. now exists rest.
Qed.

(** X14.  Without a vendor attribute, whatever [_get_mathMl] returns starts
    with ["<math"]: the markup of the tagged child, the raw value after the
    declaration is taken out, and the wrapped alternative text alike. *)
Theorem _get_mathMl_starts_with_math (node : IPDDomElement) (out : string) :
  truthy (GetAttribute node "MSFT_MathML" "MSFT_Office") = false ->
  _get_mathMl (Some node) = Ok out ->
  startswith out "<math" = true.
Proof.
  intros Hattr. rewrite _get_mathMl_tiers. cbv zeta. rewrite Hattr.
  destruct (firstMathChild (childrenOf node)) as [child|] eqn:Hfirst.
  - intros [= <-]. destruct (firstMathChild_tag _ _ Hfirst) as [Htag _].
    rewrite _getNodeMathMl_eq, openTag_render, Htag, !append_assoc.
    exact (prefix_refl_app "<math" _).
  - unfold fallbackTier. destruct (GetValue node) as [v|]; [|discriminate].
    destruct (startswith v "<math") eqn:Hpre.
    + intros [= <-]. destruct (prefix_inv _ _ Hpre) as [rest ->].
      exact (prefix_refl_app "<math" (replace_scan xmlns_mml EmptyString 0 rest)).
    + intros [= <-].
      exact (prefix_refl_app "<math" ("><mtext>" ++ html_escape v ++ "</mtext></math>")).
Qed.

(** X14, witness: a raw value that is pre-rendered markup. *)
Lemma _get_mathMl_starts_with_math_witness :
  startswith ("<math " ++ "><mn>1</mn></math>") "<math" = true.
Proof.
  apply (_get_mathMl_starts_with_math
           (PDDomElement "Formula" None []
              (Some ("<math " ++ xmlns_mml ++ "><mn>1</mn></math>")) [])).
  - reflexivity.
  - reflexivity.
Defined.

Lemma scanTags_wrapped_text (t : string) :
  plainText t = true ->
  scanTags None ("<math><mtext>" ++ t ++ "</mtext></math>")
  = Some [OpenTag "math"; OpenTag "mtext"; CloseTag "mtext"; CloseTag "math"].
Proof.
  intros Ht.
  change ("<math><mtext>" ++ t ++ "</mtext></math>")
    with (String "<" ("math" ++ String ">"
            (String "<" ("mtext" ++ String ">" (t ++ "</mtext></math>"))))).
  rewrite scanTags_tag by reflexivity.
  rewrite scanTags_tag by reflexivity.
  rewrite (scanTags_text _ _ Ht). reflexivity.
Qed.

(** X15.  The wrapped alternative text has balanced tags for every raw
    value, markup characters in it or not: its tags are those of [math]
    and [mtext], opened and closed in order. *)
Theorem _get_mathMl_alt_text_balanced (node : IPDDomElement) (v : string) :
  truthy (GetAttribute node "MSFT_MathML" "MSFT_Office") = false ->
  (forall c, In (Some c) (childrenOf node) -> GetTagName c <> "math") ->
  GetValue node = Some v ->
  startswith v "<math" = false ->
  exists out,
    _get_mathMl (Some node) = Ok out
    /\ scanTags None out
       = Some [OpenTag "math"; OpenTag "mtext"; CloseTag "mtext"; CloseTag "math"]
    /\ balancedTags out = true.
Proof.
  intros Hattr Hch Hval Hpre.
  exists ("<math><mtext>" ++ escape_chars v ++ "</mtext></math>").
  assert (Hscan : scanTags None ("<math><mtext>" ++ escape_chars v ++ "</mtext></math>")
                  = Some [OpenTag "math"; OpenTag "mtext"; CloseTag "mtext";
                          CloseTag "math"]).
  { apply scanTags_wrapped_text. unfold plainText.
    now rewrite (proj1 (escape_chars_no_angle v)). }
  split; [now apply _get_mathMl_fallback_text|].
  split; [exact Hscan|].
  unfold balancedTags. rewrite Hscan. reflexivity.
Qed.

(** X15, witness: a raw value that holds a tag. *)
Lemma _get_mathMl_alt_text_balanced_witness :
  exists out,
    _get_mathMl (Some (PDDomElement "Formula" None [] (Some "<b> & </i>") [])) = Ok out
    /\ scanTags None out
       = Some [OpenTag "math"; OpenTag "mtext"; CloseTag "mtext"; CloseTag "math"]
    /\ balancedTags out = true.
Proof.
  apply (_get_mathMl_alt_text_balanced
           (PDDomElement "Formula" None [] (Some "<b> & </i>") []) "<b> & </i>").
  - reflexivity.
  - intros c [].
  - reflexivity.
  - reflexivity.
Defined.

Lemma markupFree_tags (n : IPDDomElement) :
  markupFree n = true ->
  scanTags None (_getNodeMathMl n) = Some (tagsOf n)
  /\ matchTags [] (tagsOf n) = true.
Proof.
  intros Hfree. split.
  - rewrite <- (append_nil_r (_getNodeMathMl n)).
    rewrite (scanTags_markup n Hfree EmptyString). simpl. now rewrite app_nil_r.
  - rewrite <- (app_nil_r (tagsOf n)). now rewrite matchTags_tagsOf.
Qed.

(** X16.  When the first child tagged ["math"] is markup-free, the result of
    the tagged tier has balanced tags, the outermost of them [math]. *)
Theorem _get_mathMl_tagged_balanced (node child : IPDDomElement) :
  truthy (GetAttribute node "MSFT_MathML" "MSFT_Office") = false ->
  firstMathChild (childrenOf node) = Some child ->
  markupFree child = true ->
  exists out inner,
    _get_mathMl (Some node) = Ok out
    /\ scanTags None out = Some (OpenTag "math" :: inner ++ [CloseTag "math"])%list
    /\ balancedTags out = true.
Proof.
  intros Hattr Hfirst Hfree.
  destruct (markupFree_tags child Hfree) as [Hscan Hmatch].
  destruct (firstMathChild_tag _ _ Hfirst) as [Htag _].
  exists (_getNodeMathMl child).
  exists (if truthy (GetValue child) then []
          else flat_map (fun c => match c with
                                  | Some subNode => tagsOf subNode
                                  | None => []
                                  end) (childrenOf child)).
  split; [|split].
  - rewrite _get_mathMl_tiers. cbv zeta. now rewrite Hattr, Hfirst.
  - rewrite Hscan, tagsOf_eq, Htag. reflexivity.
  - unfold balancedTags. now rewrite Hscan.
Qed.

(** X16, witness: the tagged child comes after a child that is no element. *)
Lemma _get_mathMl_tagged_balanced_witness :
  exists out inner,
    _get_mathMl
      (Some (PDDomElement "Formula" None [] None
               [None;
                Some (PDDomElement "math" None [] None
                        [Some (PDDomElement "mn" None [] (Some "1") []); None])]))
    = Ok out
    /\ scanTags None out = Some (OpenTag "math" :: inner ++ [CloseTag "math"])%list
    /\ balancedTags out = true.
Proof.
  apply (_get_mathMl_tagged_balanced
           (PDDomElement "Formula" None [] None
              [None;
               Some (PDDomElement "math" None [] None
                       [Some (PDDomElement "mn" None [] (Some "1") []); None])])
           (PDDomElement "math" None [] None
              [Some (PDDomElement "mn" None [] (Some "1") []); None]));
    reflexivity.
Defined.

Lemma length_append (a b : string) :
  String.length (a ++ b) = (String.length a + String.length b)%nat.
Proof. induction a as [|c a IH]; simpl; [reflexivity | now rewrite IH]. Qed.

Lemma escape_char_plain (c : ascii) :
  isSpecialChar c = false -> escape_char c = String c EmptyString.
Proof.
  unfold isSpecialChar, escape_char. intros H.
  repeat (apply orb_false_iff in H; destruct H as [H ?]).
  now repeat match goal with Hc : Ascii.eqb c _ = false |- _ => rewrite Hc; clear Hc end.
Qed.

Lemma escape_char_special (c : ascii) :
  isSpecialChar c = true -> (4 <= String.length (escape_char c))%nat.
Proof.
  unfold isSpecialChar, escape_char. intros H.
  destruct (Ascii.eqb c "&"); [simpl; lia|].
  destruct (Ascii.eqb c "<"); [simpl; lia|].
  destruct (Ascii.eqb c ">"); [simpl; lia|].
  destruct (Ascii.eqb c "034"); [simpl; lia|].
  destruct (Ascii.eqb c "039"); [simpl; lia | discriminate H].
Qed.

Lemma escape_chars_length (s : string) :
  (String.length s <= String.length (escape_chars s))%nat
  /\ (hasSpecialChar s = true -> (String.length s < String.length (escape_chars s))%nat).
Proof.
  induction s as [|c s [IHle IHlt]]; [split; [reflexivity | discriminate]|].
  change (escape_chars (String c s)) with (escape_char c ++ escape_chars s).
  change (hasSpecialChar (String c s)) with (isSpecialChar c || hasSpecialChar s).
  change (String.length (String c s)) with (S (String.length s)).
  rewrite length_append.
  destruct (isSpecialChar c) eqn:Hc.
  - pose proof (escape_char_special c Hc). split; [lia | intros _; lia].
  - rewrite (escape_char_plain c Hc).
    change (String.length (String c EmptyString)) with 1%nat.
    split; [lia|]. intros H. apply IHlt in H. lia.
Qed.

Lemma escape_chars_plain (s : string) :
  hasSpecialChar s = false -> escape_chars s = s.
Proof.
  induction s as [|c s IH]; [reflexivity|].
  simpl. intros H. apply orb_false_iff in H. destruct H as [Hc Hs].
  now rewrite (escape_char_plain c Hc), (IH Hs).
Qed.

(** X17.  The alternative text is wrapped as it is exactly when the raw
    value holds none of the characters ampersand, ["<"], [">"], double
    quote and single quote; the escaped text is never shorter than the raw
    value. *)
Theorem _get_mathMl_alt_text_verbatim (node : IPDDomElement) (v : string) :
  truthy (GetAttribute node "MSFT_MathML" "MSFT_Office") = false ->
  (forall c, In (Some c) (childrenOf node) -> GetTagName c <> "math") ->
  GetValue node = Some v ->
  startswith v "<math" = false ->
  (_get_mathMl (Some node) = Ok ("<math><mtext>" ++ v ++ "</mtext></math>")
   <-> hasSpecialChar v = false)
  /\ (String.length v <= String.length (html_escape v))%nat.
Proof.
  intros Hattr Hch Hval Hpre.
  rewrite (_get_mathMl_fallback_text node v Hattr Hch Hval Hpre), html_escape_chars.
  destruct (escape_chars_length v) as [Hle Hlt].
  split; [|exact Hle]. split.
  - intros H. destruct (hasSpecialChar v) eqn:Hs; [|reflexivity].
    injection H as H. apply (f_equal String.length) in H.
    rewrite !length_append in H. specialize (Hlt eq_refl). lia.
  - intros Hs. now rewrite (escape_chars_plain v Hs).
Qed.

(** X17, witness: a raw value without any of the five characters. *)
Lemma _get_mathMl_alt_text_verbatim_witness :
  _get_mathMl (Some (PDDomElement "Formula" None [] (Some "x plus 1") []))
  = Ok ("<math><mtext>" ++ "x plus 1" ++ "</mtext></math>").
Proof.
  apply (proj1 (_get_mathMl_alt_text_verbatim
                  (PDDomElement "Formula" None [] (Some "x plus 1") []) "x plus 1"
                  eq_refl (fun c H => match H with end) eq_refl eq_refl)).
  reflexivity.
Defined.

Lemma replace_scan_delete_length (old s : string) (skip : nat) :
  (String.length (replace_scan old EmptyString skip s) <= String.length s)%nat.
Proof.
  revert skip. induction s as [|c s IH]; intros skip; [reflexivity|].
  destruct skip as [|k].
  - change (replace_scan old EmptyString 0 (String c s))
      with (if String.prefix old (String c s)
            then EmptyString ++ replace_scan old EmptyString (String.length old - 1) s
            else String c (replace_scan old EmptyString 0 s)).
    destruct (String.prefix old (String c s)).
    + specialize (IH (String.length old - 1)%nat). simpl in *. lia.
    + specialize (IH 0%nat). simpl in *. lia.
  - specialize (IH k). simpl in *. lia.
Qed.

Lemma replace_scan_delete_shorter (o : ascii) (old' s : string) :
  occursIn (String o old') s = true ->
  (String.length (replace_scan (String o old') EmptyString 0 s) < String.length s)%nat.
Proof.
  set (old := String o old').
  induction s as [|c s IH]; intros H; [discriminate H|].
  change (occursIn old (String c s))
    with (String.prefix old (String c s) || occursIn old s) in H.
  change (replace_scan old EmptyString 0 (String c s))
    with (if String.prefix old (String c s)
          then EmptyString ++ replace_scan old EmptyString (String.length old - 1) s
          else String c (replace_scan old EmptyString 0 s)).
  destruct (String.prefix old (String c s)).
  - pose proof (replace_scan_delete_length old s (String.length old - 1)).
    simpl in *. lia.
  - simpl in H. specialize (IH H). simpl in *. lia.
Qed.

(** X18.  The pre-rendered raw value comes back changed exactly when the
    namespace declaration occurs in it, and then shorter; it never comes
    back longer. *)
Theorem _get_mathMl_prerendered_changed (node : IPDDomElement) (v : string) :
  truthy (GetAttribute node "MSFT_MathML" "MSFT_Office") = false ->
  (forall c, In (Some c) (childrenOf node) -> GetTagName c <> "math") ->
  GetValue node = Some v ->
  startswith v "<math" = true ->
  exists out,
    _get_mathMl (Some node) = Ok out
    /\ (String.length out <= String.length v)%nat
    /\ (out = v <-> occursIn xmlns_mml v = false).
Proof.
  intros Hattr Hch Hval Hpre.
  exists (replace_scan xmlns_mml EmptyString 0 v).
  split; [|split].
  - rewrite _get_mathMl_tiers. cbv zeta.
    rewrite Hattr, (firstMathChild_none _ Hch), Hval. unfold fallbackTier.
    now rewrite Hpre.
  - apply replace_scan_delete_length.
  - split.
    + intros Heq. destruct (occursIn xmlns_mml v) eqn:Hocc; [|reflexivity].
      pose proof (replace_scan_delete_shorter "x" (String.substring 1 47 xmlns_mml) v Hocc)
        as Hlt.
      change (String "x" (String.substring 1 47 xmlns_mml)) with xmlns_mml in Hlt.
      rewrite Heq in Hlt. lia.
    + apply replace_scan_unchanged.
Qed.

(** X18, witness: two declarations in the raw value. *)
Lemma _get_mathMl_prerendered_changed_witness :
  exists out,
    _get_mathMl
      (Some (PDDomElement "Formula" None []
               (Some ("<math " ++ xmlns_mml ++ " " ++ xmlns_mml ++ "></math>")) []))
    = Ok out
    /\ (String.length out
        <= String.length ("<math " ++ xmlns_mml ++ " " ++ xmlns_mml ++ "></math>"))%nat
    /\ (out = "<math " ++ xmlns_mml ++ " " ++ xmlns_mml ++ "></math>"
        <-> occursIn xmlns_mml ("<math " ++ xmlns_mml ++ " " ++ xmlns_mml ++ "></math>")
            = false).
Proof.
  apply (_get_mathMl_prerendered_changed
           (PDDomElement "Formula" None []
              (Some ("<math " ++ xmlns_mml ++ " " ++ xmlns_mml ++ "></math>")) [])
           ("<math " ++ xmlns_mml ++ " " ++ xmlns_mml ++ "></math>")
           eq_refl (fun c H => match H with end) eq_refl eq_refl).
Defined.

Lemma presentAttributes_ext (n1 n2 : IPDDomElement) (attrList : list string) :
  (forall a, GetAttribute n1 a "NSO" = GetAttribute n2 a "NSO") ->
  presentAttributes n1 attrList = presentAttributes n2 attrList.
Proof.
  intros H. unfold presentAttributes. apply flat_map_ext. intros a.
  cbv zeta. now rewrite H.
Qed.

(** X19.  Of the attributes of an element only those of the owner ["NSO"]
    are read: two elements with the same tag name, identifier, raw value and
    children that agree on these attributes have the same markup, whatever
    they hold under other owners. *)
Theorem _getNodeMathMl_reads_NSO_only
        (tag : string) (id value : option string)
        (attrs1 attrs2 : list (string * string * string))
        (children : list (option IPDDomElement)) :
  (forall a, attr_lookup attrs1 a "NSO" = attr_lookup attrs2 a "NSO") ->
  _getNodeMathMl (PDDomElement tag id attrs1 value children)
  = _getNodeMathMl (PDDomElement tag id attrs2 value children).
Proof.
  intros H. rewrite !_getNodeMathMl_eq, !openTag_render.
  unfold emittedAttributes, contentOf.
  simpl GetID. simpl GetTagName. simpl GetValue. simpl childrenOf.
  rewrite (presentAttributes_ext (PDDomElement tag id attrs1 value children)
             (PDDomElement tag id attrs2 value children) ["intent"; "arg"] H).
  rewrite (presentAttributes_ext (PDDomElement tag id attrs1 value children)
             (PDDomElement tag id attrs2 value children) (tagAttributes tag) H).
  reflexivity.
Qed.

(** X19, witness: an attribute of another owner is added. *)
Lemma _getNodeMathMl_reads_NSO_only_witness :
  _getNodeMathMl
    (PDDomElement "mi" None [("mathvariant", "NSO", "bold")] (Some "x") [])
  = _getNodeMathMl
      (PDDomElement "mi" None
         [("mathvariant", "XML-1.00", "italic"); ("mathvariant", "NSO", "bold")]
         (Some "x") []).
Proof.
  apply _getNodeMathMl_reads_NSO_only.
  intros a.
  change (attr_lookup [("mathvariant", "XML-1.00", "italic"); ("mathvariant", "NSO", "bold")]
            a "NSO")
    with (if String.eqb "mathvariant" a && false then Some "italic"
          else attr_lookup [("mathvariant", "NSO", "bold")] a "NSO").
  rewrite andb_false_r. reflexivity.
Defined.

(** * The attributes in the returned string *)

Lemma nonEmpty_append_char (acc : string) (c : ascii) :
  nonEmpty (acc ++ String c EmptyString) = true.
Proof. destruct acc; reflexivity. Qed.

Lemma hasChar_cons_false (x c : ascii) (s : string) :
  hasChar x (String c s) = false -> Ascii.eqb c x = false /\ hasChar x s = false.
Proof. simpl. apply orb_false_iff. Qed.

Lemma scanOpenTags_text (t rest : string) :
  plainText t = true -> scanOpenTags InText (t ++ rest) = scanOpenTags InText rest.
Proof.
  unfold plainText. intros H. apply negb_true_iff in H.
  induction t as [|c t IH]; [reflexivity|].
  apply hasChar_cons_false in H. destruct H as [Hc Ht].
  change (scanOpenTags InText (String c t ++ rest))
    with (if Ascii.eqb c "<" then scanOpenTags (InName EmptyString) (t ++ rest)
          else scanOpenTags InText (t ++ rest)).
  rewrite Hc. now apply IH.
Qed.

Lemma scanOpenTags_name (t acc rest : string) :
  hasChar " " t = false ->
  hasChar ">" t = false ->
  nonEmpty acc = true \/ String.prefix "/" t = false ->
  scanOpenTags (InName acc) (t ++ rest) = scanOpenTags (InName (acc ++ t)) rest.
Proof.
  revert acc. induction t as [|c t IH]; intros acc Hsp Hgt Hslash.
  - now rewrite append_nil_r.
  - apply hasChar_cons_false in Hsp. destruct Hsp as [Hcsp Hsp].
    apply hasChar_cons_false in Hgt. destruct Hgt as [Hcgt Hgt].
    assert (Hnot : Ascii.eqb c "/" && negb (nonEmpty acc) = false).
    { destruct Hslash as [Hne|Hpre]; [now rewrite Hne, andb_false_r|].
      simpl in Hpre. destruct (Ascii.eqb_spec c "/") as [->|_]; [|reflexivity].
      simpl in Hpre. now destruct t. }
    change (scanOpenTags (InName acc) (String c t ++ rest))
      with (if Ascii.eqb c ">" then
              if nonEmpty acc
              then consTag (acc, []) (scanOpenTags InText (t ++ rest)) else None
            else if Ascii.eqb c " " then
              if nonEmpty acc
              then scanOpenTags (InAttrName acc [] EmptyString) (t ++ rest) else None
            else if Ascii.eqb c "/" && negb (nonEmpty acc)
                 then scanOpenTags InClosing (t ++ rest)
            else scanOpenTags (InName (acc ++ String c EmptyString)) (t ++ rest)).
    rewrite Hcgt, Hcsp, Hnot, IH; try assumption.
    + now rewrite append_assoc.
    + left. apply nonEmpty_append_char.
Qed.

Lemma scanOpenTags_attrName (n acc rest : string) (tag : string)
      (attrs : list (string * string)) :
  hasChar "=" n = false -> hasChar " " n = false ->
  hasChar ">" n = false -> hasChar "034" n = false ->
  scanOpenTags (InAttrName tag attrs acc) (n ++ String "=" rest)
  = if nonEmpty (acc ++ n) then scanOpenTags (AfterEq tag attrs (acc ++ n)) rest
    else None.
Proof.
  revert acc. induction n as [|c n IH]; intros acc Heq Hsp Hgt Hq.
  - now rewrite append_nil_r.
  - apply hasChar_cons_false in Heq. destruct Heq as [Hceq Heq].
    apply hasChar_cons_false in Hsp. destruct Hsp as [Hcsp Hsp].
    apply hasChar_cons_false in Hgt. destruct Hgt as [Hcgt Hgt].
    apply hasChar_cons_false in Hq. destruct Hq as [Hcq Hq].
    change (scanOpenTags (InAttrName tag attrs acc) (String c n ++ String "=" rest))
      with (if Ascii.eqb c "=" then
              if nonEmpty acc
              then scanOpenTags (AfterEq tag attrs acc) (n ++ String "=" rest) else None
            else if Ascii.eqb c " " || Ascii.eqb c ">" || Ascii.eqb c "034" then None
            else scanOpenTags (InAttrName tag attrs (acc ++ String c EmptyString))
                   (n ++ String "=" rest)).
    rewrite Hceq, Hcsp, Hcgt, Hcq. simpl orb. cbv iota.
    rewrite IH by assumption. now rewrite append_assoc.
Qed.

Lemma scanOpenTags_value (v acc rest name tag : string) (attrs : list (string * string)) :
  hasChar "034" v = false ->
  scanOpenTags (InAttrValue tag attrs name acc) (v ++ String "034" rest)
  = scanOpenTags (AfterValue tag (attrs ++ [(name, (acc ++ v)%string)])%list) rest.
Proof.
  revert acc. induction v as [|c v IH]; intros acc Hq.
  - now rewrite append_nil_r.
  - apply hasChar_cons_false in Hq. destruct Hq as [Hcq Hq].
    change (scanOpenTags (InAttrValue tag attrs name acc) (String c v ++ String "034" rest))
      with (if Ascii.eqb c "034"
            then scanOpenTags (AfterValue tag (attrs ++ [(name, acc)])%list)
                   (v ++ String "034" rest)
            else scanOpenTags (InAttrValue tag attrs name (acc ++ String c EmptyString))
                   (v ++ String "034" rest)).
    rewrite Hcq, IH by assumption. now rewrite append_assoc.
Qed.

Lemma scanOpenTags_closing (t rest : string) :
  hasChar ">" t = false ->
  scanOpenTags InClosing (t ++ String ">" rest) = scanOpenTags InText rest.
Proof.
  induction t as [|c t IH]; intros H; [reflexivity|].
  apply hasChar_cons_false in H. destruct H as [Hc Ht].
  change (scanOpenTags InClosing (String c t ++ String ">" rest))
    with (if Ascii.eqb c ">" then scanOpenTags InText (t ++ String ">" rest)
          else scanOpenTags InClosing (t ++ String ">" rest)).
  rewrite Hc. now apply IH.
Qed.

Lemma attrNameOk_parts (n : string) :
  attrNameOk n = true ->
  nonEmpty n = true /\ hasChar "=" n = false /\ hasChar " " n = false
  /\ hasChar ">" n = false /\ hasChar "034" n = false.
Proof.
  unfold attrNameOk. intros H.
  repeat (apply andb_true_iff in H; destruct H as [H ?]).
  repeat match goal with Hn : negb _ = true |- _ => apply negb_true_iff in Hn end.
  repeat split; assumption.
Qed.

Lemma scanOpenTags_attribute (a : string * string) (tag rest : string)
      (attrs : list (string * string)) :
  attributeOk a ->
  scanOpenTags (AfterValue tag attrs) (renderAttribute a ++ rest)
  = scanOpenTags (AfterValue tag (attrs ++ [a])%list) rest.
Proof.
  destruct a as [n v]. intros [Hn Hv]. simpl fst in Hn. simpl snd in Hv.
  destruct (attrNameOk_parts n Hn) as (Hne & Heq & Hsp & Hgt & Hq).
  unfold renderAttribute, dquote. simpl fst. simpl snd.
  rewrite !append_assoc.
  change (" " ++ n ++ "=" ++ String "034" EmptyString ++ v ++ String "034" EmptyString ++ rest)
    with (String " " (n ++ String "=" (String "034" (v ++ String "034" rest)))).
  change (scanOpenTags (AfterValue tag attrs)
            (String " " (n ++ String "=" (String "034" (v ++ String "034" rest)))))
    with (scanOpenTags (InAttrName tag attrs EmptyString)
            (n ++ String "=" (String "034" (v ++ String "034" rest)))).
  rewrite scanOpenTags_attrName by assumption.
  change (EmptyString ++ n) with n. rewrite Hne.
  change (scanOpenTags (AfterEq tag attrs n) (String "034" (v ++ String "034" rest)))
    with (scanOpenTags (InAttrValue tag attrs n EmptyString) (v ++ String "034" rest)).
  now rewrite scanOpenTags_value.
Qed.

Lemma scanOpenTags_attributes (l : list (string * string)) (tag rest : string)
      (attrs : list (string * string)) :
  Forall attributeOk l ->
  scanOpenTags (AfterValue tag attrs) (renderAttributes l ++ String ">" rest)
  = consTag (tag, (attrs ++ l)%list) (scanOpenTags InText rest).
Proof.
  intros H. revert attrs. induction H as [|a l Ha _ IH]; intros attrs.
  - now rewrite app_nil_r.
  - change (renderAttributes (a :: l)) with (renderAttribute a ++ renderAttributes l).
    rewrite append_assoc, (scanOpenTags_attribute a tag _ attrs Ha), IH.
    now rewrite <- app_assoc.
Qed.

Lemma scanOpenTags_after_name (l : list (string * string)) (tag rest : string) :
  nonEmpty tag = true ->
  scanOpenTags (InName tag) (renderAttributes l ++ String ">" rest)
  = scanOpenTags (AfterValue tag []) (renderAttributes l ++ String ">" rest).
Proof.
  intros Hne. destruct (renderAttributes_shape l) as [->|[attrs' ->]].
  - change (scanOpenTags (InName tag) (EmptyString ++ String ">" rest))
      with (if nonEmpty tag then consTag (tag, []) (scanOpenTags InText rest) else None).
    now rewrite Hne.
  - change (scanOpenTags (InName tag) (String " " attrs' ++ String ">" rest))
      with (if nonEmpty tag
            then scanOpenTags (InAttrName tag [] EmptyString) (attrs' ++ String ">" rest)
            else None).
    now rewrite Hne.
Qed.

Lemma tagAttributes_names_ok (tag n : string) :
  In n (["intent"; "arg"] ++ tagAttributes tag)%list -> attrNameOk n = true.
Proof.
  unfold tagAttributes.
  repeat match goal with
         | |- context [if ?b then _ else _] => destruct b
         end;
    simpl; intros H;
    repeat (destruct H as [H|H]; [subst n; reflexivity|]); destruct H.
Qed.

Lemma presentAttributes_ok (node : IPDDomElement) (attrList : list string) :
  (forall n, In n attrList -> attrNameOk n = true) ->
  forallb (fun attr => quoteFreeIfSet (GetAttribute node attr "NSO")) attrList = true ->
  Forall attributeOk (presentAttributes node attrList).
Proof.
  intros Hnames Hvals. apply Forall_forall. intros [n v] Hin.
  apply presentAttributes_In in Hin. destruct Hin as (Hl & Hget & Hne).
  split; [now apply Hnames|]. simpl snd.
  rewrite forallb_forall in Hvals. specialize (Hvals n Hl).
  unfold quoteFreeIfSet in Hvals. rewrite Hget in Hvals.
  destruct v as [|c v]; [now elim Hne|].
  simpl truthy in Hvals. simpl negb in Hvals. simpl fmt in Hvals.
  now apply negb_true_iff in Hvals.
Qed.

Lemma emittedAttributes_ok (node : IPDDomElement) :
  quoteFreeIfSet (GetID node) = true ->
  forallb (fun attr => quoteFreeIfSet (GetAttribute node attr "NSO"))
          (["intent"; "arg"] ++ tagAttributes (GetTagName node))%list = true ->
  Forall attributeOk (emittedAttributes node).
Proof.
  intros Hid Hattrs. unfold emittedAttributes. apply Forall_app. split.
  - destruct (truthy (GetID node)) eqn:Ht; constructor; [|constructor].
    split; [reflexivity|]. simpl snd. unfold quoteFreeIfSet in Hid.
    rewrite Ht in Hid. now apply negb_true_iff in Hid.
  - rewrite presentAttributes_app_list.
    apply presentAttributes_ok; [apply tagAttributes_names_ok | exact Hattrs].
Qed.

Lemma quoteFree_eq (node : IPDDomElement) :
  quoteFree node
  = tagNameOk (GetTagName node)
    && quoteFreeIfSet (GetID node)
    && forallb (fun attr => quoteFreeIfSet (GetAttribute node attr "NSO"))
         (["intent"; "arg"] ++ tagAttributes (GetTagName node))%list
    && (if truthy (GetValue node) then plainText (fmt (GetValue node))
        else forallb (fun child =>
                        match child with
                        | Some subNode => quoteFree subNode
                        | None => true
                        end) (childrenOf node)).
Proof. destruct node; reflexivity. Qed.

Lemma elementsOf_eq (node : IPDDomElement) :
  elementsOf node
  = (GetTagName node, emittedAttributes node)
    :: (if truthy (GetValue node) then []
        else flat_map (fun child =>
                         match child with
                         | Some subNode => elementsOf subNode
                         | None => []
                         end) (childrenOf node)).
Proof. destruct node; reflexivity. Qed.

Lemma tagNameOk_parts (s : string) :
  tagNameOk s = true ->
  nonEmpty s = true /\ hasChar " " s = false /\ hasChar ">" s = false
  /\ String.prefix "/" s = false.
Proof.
  unfold tagNameOk. intros H.
  repeat (apply andb_true_iff in H; destruct H as [H ?]).
  repeat match goal with Hn : negb _ = true |- _ => apply negb_true_iff in Hn end.
  repeat split; assumption.
Qed.

Lemma scanOpenTags_children (children : list (option IPDDomElement)) :
  Forall (fun c => match c with
                   | Some n => quoteFree n = true ->
                               forall rest,
                                 scanOpenTags InText (_getNodeMathMl n ++ rest)
                                 = option_map (app (elementsOf n))
                                     (scanOpenTags InText rest)
                   | None => True
                   end) children ->
  forallb (fun child => match child with
                        | Some subNode => quoteFree subNode
                        | None => true
                        end) children = true ->
  forall rest,
    scanOpenTags InText (childrenMarkup children ++ rest)
    = option_map
        (app (flat_map (fun child => match child with
                                     | Some subNode => elementsOf subNode
                                     | None => []
                                     end) children))
        (scanOpenTags InText rest).
Proof.
  induction 1 as [|[c|] l Hc _ IH]; intros Hfree rest.
  - simpl. now destruct (scanOpenTags InText rest).
  - simpl forallb in Hfree. apply andb_true_iff in Hfree. destruct Hfree as [Hf Hl].
    simpl childrenMarkup. rewrite append_assoc, (Hc Hf), (IH Hl).
    simpl flat_map. destruct (scanOpenTags InText rest) as [ts|]; simpl; [|reflexivity].
    now rewrite app_assoc.
  - simpl forallb in Hfree. simpl childrenMarkup. simpl flat_map. now apply IH.
Qed.

(** The scan reads back from the markup of a quote-free tree the opening
    tags of its elements, each with the attributes written for it. *)
Lemma scanOpenTags_markup (node : IPDDomElement) :
  quoteFree node = true ->
  forall rest,
    scanOpenTags InText (_getNodeMathMl node ++ rest)
    = option_map (app (elementsOf node)) (scanOpenTags InText rest).
Proof.
  induction node as [tag id attrs value children IH] using IPDDomElement_tree_ind.
  intros Hfree rest.
  rewrite quoteFree_eq in Hfree.
  apply andb_true_iff in Hfree. destruct Hfree as [Hfree Hcontent].
  apply andb_true_iff in Hfree. destruct Hfree as [Hfree Hattrs].
  apply andb_true_iff in Hfree. destruct Hfree as [Hname Hid].
  destruct (tagNameOk_parts _ Hname) as (Hne & Hsp & Hgt & Hslash).
  pose proof (emittedAttributes_ok _ Hid Hattrs) as Hok.
  rewrite _getNodeMathMl_shape, elementsOf_eq.
  set (node := PDDomElement tag id attrs value children) in *.
  simpl GetTagName in Hne, Hsp, Hgt, Hslash |- *.
  change (scanOpenTags InText (String "<" ?s)) with (scanOpenTags (InName EmptyString) s).
  rewrite append_assoc.
  rewrite (scanOpenTags_name tag EmptyString _ Hsp Hgt (or_intror Hslash)).
  change (EmptyString ++ tag) with tag.
  rewrite (scanOpenTags_after_name _ tag _ Hne).
  rewrite (scanOpenTags_attributes _ tag _ [] Hok).
  change ([] ++ emittedAttributes node)%list with (emittedAttributes node).
  assert (Hclose : forall r,
             scanOpenTags InText (String "<" (String "/" tag ++ String ">" r))
             = scanOpenTags InText r).
  { intros r.
    change (scanOpenTags InText (String "<" (String "/" tag ++ String ">" r)))
      with (scanOpenTags InClosing (tag ++ String ">" r)).
    now apply scanOpenTags_closing. }
  unfold contentOf. subst node. simpl GetValue in *. simpl childrenOf in *.
  destruct (truthy value).
  - rewrite (scanOpenTags_text _ _ Hcontent), Hclose.
    now destruct (scanOpenTags InText rest).
  - rewrite (scanOpenTags_children children IH Hcontent), Hclose.
    now destruct (scanOpenTags InText rest).
Qed.

Lemma elementsOf_In (node : IPDDomElement) (entry : openTagEntry) :
  In entry (elementsOf node) ->
  exists e, entry = (GetTagName e, emittedAttributes e).
Proof.
  induction node as [tag id attrs value children IH] using IPDDomElement_tree_ind.
  rewrite elementsOf_eq. simpl GetValue. simpl childrenOf.
  intros [H|H]; [exists (PDDomElement tag id attrs value children); now symmetry|].
  destruct (truthy value); [destruct H|].
  apply in_flat_map in H. destruct H as ([c|] & Hin & Hc); [|destruct Hc].
  rewrite Forall_forall in IH. exact (IH (Some c) Hin Hc).
Qed.

(** C2 (as amended).  For a quote-free tree (tag names that are names,
    identifiers and listed attribute values without a double quote, raw
    values without ["<"]), the opening tags read from the returned string
    are those of the elements of the tree that are written, each with the
    attributes written for it; every attribute in the string has a value
    that is not empty, and its name is [id], or one of [intent] and [arg],
    or in the row of the attribute table for the tag name of its tag. *)
Theorem _getNodeMathMl_string_attributes (node : IPDDomElement) :
  quoteFree node = true ->
  exists tags,
    openTagsOf (_getNodeMathMl node) = Some tags
    /\ tags = elementsOf node
    /\ (forall tag attrs n v,
          In (tag, attrs) tags -> In (n, v) attrs ->
          v <> EmptyString
          /\ (n = "id" \/ In n universalAttributes
              \/ In n (whitelistFor AttributeWhitelist tag))).
Proof.
  intros Hfree. exists (elementsOf node). split; [|split; [reflexivity|]].
  - unfold openTagsOf. rewrite <- (append_nil_r (_getNodeMathMl node)).
    rewrite (scanOpenTags_markup node Hfree EmptyString). simpl.
    now rewrite app_nil_r.
  - intros tag attrs n v Hentry Hin.
    destruct (elementsOf_In node _ Hentry) as [e [= -> ->]].
    destruct (proj1 (proj2 (_getNodeMathMl_attributes e)) n v Hin) as [Hne Hname].
    split; [exact Hne|].
    destruct Hname as [[-> _]|[[Hu|Hw] _]]; auto.
Qed.

(** C2, witness: values with ["<"] and [">"] in them, an empty [close], and
    a child that is no element. *)
Lemma _getNodeMathMl_string_attributes_witness :
  exists tags,
    openTagsOf
      (_getNodeMathMl
         (PDDomElement "mfenced" (Some "f1")
            [("open", "NSO", "<"); ("close", "NSO", EmptyString);
             ("separators", "XML-1.00", ",")] None
            [Some (PDDomElement "mi" None [("mathvariant", "NSO", "a>b")] (Some "x") []);
             None]))
    = Some tags
    /\ tags = [("mfenced", [("id", "f1"); ("open", "<")]); ("mi", [("mathvariant", "a>b")])].
Proof.
  destruct (_getNodeMathMl_string_attributes
              (PDDomElement "mfenced" (Some "f1")
                 [("open", "NSO", "<"); ("close", "NSO", EmptyString);
                  ("separators", "XML-1.00", ",")] None
                 [Some (PDDomElement "mi" None [("mathvariant", "NSO", "a>b")]
                          (Some "x") []);
                  None])
              eq_refl) as (tags & Hscan & Htags & _).
  exists tags. split; [exact Hscan | exact Htags].
Defined.

(** A double quote in a value ends the value early: the string then holds
    attributes that were not written as such, an empty one and a repeated
    one among them. *)
Lemma _getNodeMathMl_quote_in_value :
  openTagsOf
    (_getNodeMathMl
       (PDDomElement "mfenced" None
          [("open", "NSO", "[" ++ dquote ++ " close=" ++ dquote)] None []))
  = Some [("mfenced", [("open", "["); ("close", EmptyString)])]
  /\ openTagsOf
       (_getNodeMathMl
          (PDDomElement "mi" (Some ("a" ++ dquote ++ " intent=" ++ dquote ++ "b"))
             [("intent", "NSO", "c")] None []))
     = Some [("mi", [("id", "a"); ("intent", "b"); ("intent", "c")])].
Proof. split; reflexivity. Qed.

(** X12.  For a quote-free tree, no attribute name stands twice in an
    opening tag of the returned string. *)
Theorem _getNodeMathMl_no_repeated_attribute (node : IPDDomElement) :
  quoteFree node = true ->
  exists tags,
    openTagsOf (_getNodeMathMl node) = Some tags
    /\ (forall tag attrs, In (tag, attrs) tags -> NoDup (map fst attrs)).
Proof.
  intros Hfree. exists (elementsOf node). split.
  - unfold openTagsOf. rewrite <- (append_nil_r (_getNodeMathMl node)).
    rewrite (scanOpenTags_markup node Hfree EmptyString). simpl.
    now rewrite app_nil_r.
  - intros tag attrs Hentry.
    destruct (elementsOf_In node _ Hentry) as [e [= -> ->]].
    exact (proj2 (emittedAttributes_NoDup e)).
Qed.

(** X12, witness: an element with identifier, [intent], [arg] and both
    attributes of its row. *)
Lemma _getNodeMathMl_no_repeated_attribute_witness :
  exists tags,
    openTagsOf
      (_getNodeMathMl
         (PDDomElement "ms" (Some "s1")
            [("close", "NSO", ")"); ("open", "NSO", "("); ("arg", "NSO", "a");
             ("intent", "NSO", "i"); ("open", "NSO", "[")] (Some "t") []))
    = Some tags
    /\ (forall tag attrs, In (tag, attrs) tags -> NoDup (map fst attrs)).
Proof.
  apply (_getNodeMathMl_no_repeated_attribute
           (PDDomElement "ms" (Some "s1")
              [("close", "NSO", ")"); ("open", "NSO", "("); ("arg", "NSO", "a");
               ("intent", "NSO", "i"); ("open", "NSO", "[")] (Some "t") [])).
  reflexivity.
Defined.
